(** * Options-Scanner: a shallow embedding of the streaming pipeline

    The development follows the four source files of the repository:
    [strategy.py] (the momentum engine), [main.py] (the orchestrator),
    [redis_pubsub.py] (the distribution bus) and [polygon_ws.py] (the feed
    connector).  Part I gives the embedding, one module per Python class;
    Part II states and proves the properties. *)

From Stdlib Require Import ZArith Lia Ascii String Floats.SpecFloat.
From stdpp Require Import gmap strings list.

(** * Part I: the embedding *)

(** ** Fragments of the Python runtime the code relies on *)

(** The exceptions that the modelled code can raise or catch.  In the
    client library [ConnectionError] and [TimeoutError] are subclasses of
    [RedisError]; [is_RedisError] below records that. *)
Inductive exception : Type :=
  | KeyError (key : string)
  | ZeroDivisionError
  | ValueError
  | TypeError
  | AttributeError (name : string)
  | ImportError (name : string)
  | JSONDecodeError
  | RedisError
  | ConnectionError
  | TimeoutError.

(** The outcome of a Python call: a returned value or a raised exception. *)
Inductive result (A : Type) : Type :=
  | Return (a : A)
  | Raise (e : exception).
Arguments Return {A} a.
Arguments Raise {A} e.

Definition bind {A B : Type} (r : result A) (k : A -> result B) : result B :=
  match r with
  | Return a => k a
  | Raise e => Raise e
  end.

Notation "x <- r ;; k" := (bind r (fun x => k))
  (at level 100, r at next level, right associativity).

Fixpoint mapM {A B : Type} (f : A -> result B) (l : list A) : result (list B) :=
  match l with
  | [] => Return []
  | a :: l' => b <- f a ;; bs <- mapM f l' ;; Return (b :: bs)
  end.

(** Statements that mutate [self] and may raise: the state is threaded and
    an exception leaves the state as it was when it was raised. *)
Section StateAndExceptions.
Context {S : Type}.

Definition M (A : Type) : Type := S -> S * result A.

Definition ret {A : Type} (a : A) : M A := fun s => (s, Return a).
Definition lift {A : Type} (r : result A) : M A := fun s => (s, r).
Definition get : M S := fun s => (s, Return s).
Definition modify (f : S -> S) : M unit := fun s => (f s, Return tt).

Definition bindM {A B : Type} (m : M A) (k : A -> M B) : M B :=
  fun s =>
    match m s with
    | (s', Return a) => k a s'
    | (s', Raise e) => (s', Raise e)
    end.
End StateAndExceptions.
Arguments M S A : clear implicits.

Notation "x <~ m ;; k" := (bindM m (fun x => k))
  (at level 100, m at next level, right associativity).

(** [try: body except C1: h1 except C2: h2 ...].  When the body raises,
    the clauses are tried in order; the class expression of a clause is
    evaluated only when the clause is reached, and that evaluation may
    itself raise, which replaces the exception being handled.  A clause is
    the outcome of its class expression (the [isinstance] test it stands
    for) paired with its handler. *)
Section TryExcept.
Context {S A : Type}.

Definition clause : Type := result (exception -> bool) * M S A.

Fixpoint handle (e : exception) (clauses : list clause) : M S A :=
  match clauses with
  | [] => lift (Raise e)
  | (Return isinstance, handler) :: rest =>
      if isinstance e then handler else handle e rest
  | (Raise e', _) :: _ => lift (Raise e')
  end.

Definition try_except (body : M S A) (clauses : list clause) : M S A :=
  fun s =>
    match body s with
    | (s', Return a) => (s', Return a)
    | (s', Raise e) => handle e clauses s'
    end.
End TryExcept.

(** The class tests used by the [except] clauses of the code. *)
Definition is_Exception (e : exception) : bool := true.

Definition is_KeyError (e : exception) : bool :=
  match e with KeyError _ => true | _ => false end.

Definition is_RedisError (e : exception) : bool :=
  match e with
  | RedisError | ConnectionError | TimeoutError => true
  | _ => false
  end.

Definition is_ConnectionError (e : exception) : bool :=
  match e with ConnectionError => true | _ => false end.

Definition is_AttributeError (e : exception) : bool :=
  match e with AttributeError _ => true | _ => false end.

(** [module.name]: attribute access on a module object, given the names
    the module defines. *)
Definition getattr {A : Type} (names : list string) (name : string) (v : A)
  : result A :=
  if bool_decide (name ∈ names) then Return v else Raise (AttributeError name).

(** Python's [float] is IEEE 754 binary64; [spec_float] with precision 53
    and maximal exponent 1024 is that format, with the operations rounding
    to nearest even as the hardware does.  Prices are floats throughout:
    where the code or its tests write an [int] (a price of 1130, the
    factor 100) the model has the float of that value, which is what
    Python's mixed arithmetic converts it to and is exact for integers
    below 2^53. *)
Definition float : Type := spec_float.

Definition float_of_Z (z : Z) : float := binary_normalize 53 1024 z 0 false.
Definition fsub : float -> float -> float := SFsub 53 1024.
Definition fmul : float -> float -> float := SFmul 53 1024.

(** [x < y] and [x > y] on floats. *)
Definition flt (x y : float) : bool := SFltb x y.
Definition fgt (x y : float) : bool := SFltb y x.

(** [bool(x)] for a float: every value but the two zeros is true. *)
Definition float_truthy (x : float) : bool := negb (SFeqb x (S754_zero false)).

(** [x / y]: Python raises when the divisor compares equal to zero and
    otherwise performs the IEEE division. *)
Definition truediv (x y : float) : result float :=
  if SFeqb y (S754_zero false) then Raise ZeroDivisionError
  else Return (SFdiv 53 1024 x y).

(** [l[-n:]]: the last [n] elements, the whole list when it is shorter;
    [l[-0:]] is [l[0:]], the whole list. *)
Definition slice_last {A : Type} (n : nat) (l : list A) : list A :=
  match n with
  | O => l
  | _ => drop (length l - n) l
  end.

(** [str.upper()] and [str.lower()] on ASCII text (ticker symbols). *)
Definition ascii_upper (c : ascii) : ascii :=
  let n := nat_of_ascii c in
  if (97 <=? n)%nat && (n <=? 122)%nat then ascii_of_nat (n - 32) else c.

Definition ascii_lower (c : ascii) : ascii :=
  let n := nat_of_ascii c in
  if (65 <=? n)%nat && (n <=? 90)%nat then ascii_of_nat (n + 32) else c.

Fixpoint upper (s : string) : string :=
  match s with
  | EmptyString => EmptyString
  | String c s' => String (ascii_upper c) (upper s')
  end.

Fixpoint lower (s : string) : string :=
  match s with
  | EmptyString => EmptyString
  | String c s' => String (ascii_lower c) (lower s')
  end.

(** ** Ticks *)

(** A tick is the dict decoded from one JSON object of the feed.  The code
    reads five keys only: ["ev"], ["sym"], ["p"], ["t"] and ["s"].  A key
    the dict does not carry is [None] here; subscripting it raises
    [KeyError], while [tick.get] falls back to its default. *)
Record Tick : Type := {
  tick_ev : option string;
  tick_sym : option string;
  tick_p : option float;
  tick_t : option Z;
  tick_s : option Z
}.

Definition getitem {A : Type} (key : string) (field : option A) : result A :=
  match field with
  | Some v => Return v
  | None => Raise (KeyError key)
  end.

(** A tick carrying the three keys [evaluate_tick] subscripts. *)
Definition well_formed (tick : Tick) : Prop :=
  is_Some (tick_sym tick) /\ is_Some (tick_p tick) /\ is_Some (tick_t tick).

(** ** strategy.py *)

Module MomentumScanner.

(** The attributes [__init__] sets once and nothing assigns again. *)
Definition MOMENTUM_THRESHOLD : float := binary_normalize 53 1024 3 (-1) false.
Definition VOLUME_THRESHOLD : Z := 1000.
Definition TARGET_HOUR : Z := 15.
Definition TARGET_MINUTE_START : Z := 45.
Definition TARGET_MINUTE_END : Z := 59.
Definition HISTORY_WINDOW : nat := 5.

(** The mutable attributes. *)
Record t : Type := {
  tick_history : gmap string (list Tick);
  spy_price : option float
}.

Definition init : t := {| tick_history := ∅; spy_price := None |}.

(** [self.tick_history.get(symbol, [])] *)
Definition history (self : t) (symbol : string) : list Tick :=
  default [] (tick_history self !! symbol).

Definition set_history (symbol : string) (h : list Tick) (self : t) : t :=
  {| tick_history := <[symbol := h]> (tick_history self);
     spy_price := spy_price self |}.

Definition update_spy (tick : Tick) : M t unit :=
  price <~ lift (getitem "p" (tick_p tick)) ;;
  modify (fun self =>
    {| tick_history := tick_history self; spy_price := Some price |}).

Definition _is_momentum_up (self : t) (symbol : string) (current_price : float)
  : result bool :=
  let history := history self symbol in
  if (length history <? HISTORY_WINDOW)%nat then Return false
  else
    recent_prices <-
      mapM (fun tick => getitem "p" (tick_p tick))
           (slice_last HISTORY_WINDOW history) ;;
    Return (forallb (fun prev_price => fgt current_price prev_price)
                    recent_prices).

(** [datetime.fromtimestamp(timestamp / 1000, tz=timezone.utc)], of which
    the code reads the hour and the minute.  For an [int] number of
    milliseconds the binary64 quotient lies within half a millisecond of
    the exact one and is exact on whole seconds, so the second the
    datetime falls in is the floor of the exact quotient.  A datetime
    has a year between 1 and 9999; outside, the constructor raises
    (reported here as [ValueError]; CPython reports the far extremes as
    [OverflowError] or [OSError], which nothing below tells apart). *)
Record datetime : Type := { hour : Z; minute : Z }.

Definition fromtimestamp_utc (timestamp_ms : Z) : result datetime :=
  let seconds := (timestamp_ms / 1000)%Z in
  if ((seconds <? -62135596800) || (253402300799 <? seconds))%Z
  then Raise ValueError
  else Return {| hour := ((seconds / 3600) mod 24)%Z;
                 minute := ((seconds / 60) mod 60)%Z |}.

Definition _in_final_15_minutes (timestamp : Z) : result bool :=
  dt <- fromtimestamp_utc timestamp ;;
  Return ((hour dt =? TARGET_HOUR)%Z
          && ((TARGET_MINUTE_START <=? minute dt)%Z
              && (minute dt <=? TARGET_MINUTE_END)%Z)).

Definition _calculate_relative_strength (self : t) (price base_price : float)
  : result float :=
  stock_return <- truediv (fsub price base_price) base_price ;;
  spy_return <-
    match spy_price self with
    | Some spy =>
        if float_truthy spy then truediv (fsub spy base_price) base_price
        else Return (float_of_Z 0)
    | None => Return (float_of_Z 0)
    end ;;
  Return (fmul (fsub stock_return spy_return) (float_of_Z 100)).

(** Line 53: [self.tick_history.setdefault(symbol, []).append(tick)]. *)
Definition append_tick (symbol : string) (tick : Tick) (self : t) : t :=
  set_history symbol (history self symbol ++ [tick]) self.

(** Lines 54-55: trim to the last [HISTORY_WINDOW] entries once the list
    is longer than twice the window. *)
Definition compact (symbol : string) (self : t) : t :=
  if (HISTORY_WINDOW * 2 <? length (history self symbol))%nat
  then set_history symbol (slice_last HISTORY_WINDOW (history self symbol)) self
  else self.

Definition evaluate_tick (tick : Tick) (base_price : float) : M t bool :=
  symbol <~ lift (getitem "sym" (tick_sym tick)) ;;
  price <~ lift (getitem "p" (tick_p tick)) ;;
  timestamp <~ lift (getitem "t" (tick_t tick)) ;;
  let size := default 0%Z (tick_s tick) in
  _ <~ modify (append_tick symbol tick) ;;
  _ <~ modify (compact symbol) ;;
  self <~ get ;;
  early_exit <~
    match spy_price self with
    | None => ret true
    | Some _ =>
        in_window <~ lift (_in_final_15_minutes timestamp) ;;
        ret (negb in_window)
    end ;;
  if early_exit : bool then ret false
  else
    rel_strength <~ lift (_calculate_relative_strength self price base_price) ;;
    if flt rel_strength MOMENTUM_THRESHOLD then ret false
    else if (size <? VOLUME_THRESHOLD)%Z then ret false
    else
      momentum_up <~ lift (_is_momentum_up self symbol price) ;;
      if negb momentum_up then ret false
      else ret true.

(** The engine's two operations, and the state they lead to from a fresh
    scanner. *)
Inductive operation : Type :=
  | UpdateSpy (tick : Tick)
  | EvaluateTick (tick : Tick) (base_price : float).

Definition apply (self : t) (o : operation) : t :=
  match o with
  | UpdateSpy tick => fst (update_spy tick self)
  | EvaluateTick tick base_price => fst (evaluate_tick tick base_price self)
  end.

Definition run (ops : list operation) : t := foldl apply init ops.

(** No stored history is longer than twice the window. *)
Definition bounded (self : t) : Prop :=
  forall symbol, (length (history self symbol) <= 2 * HISTORY_WINDOW)%nat.

End MomentumScanner.

(** ** main.py *)

Module TradingBot.

Record t : Type := {
  base_prices : gmap string float;
  scanner : MomentumScanner.t
}.

Definition init : t :=
  {| base_prices :=
       <["SPY" := float_of_Z 530]>
         (<["AAPL" := float_of_Z 185]>
            (<["MSFT" := float_of_Z 430]>
               (<["NVDA" := float_of_Z 1100]>
                  (<["TSLA" := float_of_Z 185]> ∅))));
     scanner := MomentumScanner.init |}.

Definition set_scanner (sc : MomentumScanner.t) (self : t) : t :=
  {| base_prices := base_prices self; scanner := sc |}.

(** What [handle_tick] writes to the log. *)
Inductive log_record : Type :=
  | InvalidTick (tick : Tick)
  | Signal (symbol : string) (price : float)
  | ProcessingError (symbol : string) (e : exception).

Definition validate_tick (tick : Tick) : bool :=
  bool_decide (is_Some (tick_sym tick)) && bool_decide (is_Some (tick_p tick)).

(** The body of the [try] block of [handle_tick], run on the scanner. *)
Definition dispatch (self : t) (tick : Tick) (symbol : string)
  : M MomentumScanner.t bool :=
  if String.eqb symbol "SPY" then
    _ <~ MomentumScanner.update_spy tick ;; ret false
  else
    match base_prices self !! symbol with
    | Some base_price =>
        if float_truthy base_price
        then MomentumScanner.evaluate_tick tick base_price
        else ret false
    | None => ret false
    end.

Definition handle_tick (tick : Tick) (self : t) : t * list log_record :=
  if negb (validate_tick tick) then (self, [InvalidTick tick])
  else
    match tick_sym tick, tick_p tick with
    | Some sym, Some price =>
        let symbol := upper sym in
        match dispatch self tick symbol (scanner self) with
        | (sc, Return true) => (set_scanner sc self, [Signal symbol price])
        | (sc, Return false) => (set_scanner sc self, [])
        | (sc, Raise e) => (set_scanner sc self, [ProcessingError symbol e])
        end
    | _, _ => (self, [InvalidTick tick])   (* excluded by [validate_tick] *)
    end.

(** The bot after the bus has delivered the given ticks, in order. *)
Definition handle_ticks (ticks : list Tick) (self : t) : t :=
  foldl (fun bot tick => fst (handle_tick tick bot)) self ticks.

End TradingBot.

(** ** redis_pubsub.py *)

(** Values a [Dict[str, Any]] payload may hold.  [PyBytes] stands for the
    values [json.dumps] has no encoding for (bytes, sets, datetimes). *)
Inductive pyvalue : Type :=
  | PyNone
  | PyBool (b : bool)
  | PyInt (z : Z)
  | PyFloat (f : float)
  | PyStr (s : string)
  | PyBytes (b : string).

Definition pydict : Type := list (string * pyvalue).

(** [d.get(key)] *)
Fixpoint dict_get (key : string) (d : pydict) : option pyvalue :=
  match d with
  | [] => None
  | (k, v) :: d' => if String.eqb k key then Some v else dict_get key d'
  end.

Module json.

(** The names CPython's [json] package defines ([Lib/json/__init__.py]):
    its public API, its submodules and its private helpers (the dunder
    attributes every module has are left out). *)
Definition names : list string :=
  ["dump"; "dumps"; "load"; "loads"; "JSONDecoder"; "JSONDecodeError";
   "JSONEncoder"; "decoder"; "encoder"; "scanner"; "codecs";
   "detect_encoding"; "_default_encoder"; "_default_decoder"].

Definition encodable (v : pyvalue) : bool :=
  match v with
  | PyBytes _ => false
  | _ => true
  end.

(** [json.dumps(data)]: [TypeError] on a value without an encoding.  The
    text it returns is identified with the dict it encodes. *)
Definition dumps (data : pydict) : result pydict :=
  if forallb (fun kv => encodable (snd kv)) data then Return data
  else Raise TypeError.

End json.

Module RedisPubSub.

(** What a command sent to the server comes back with: success, a
    [redis.ConnectionError], or a [redis.TimeoutError] (a [RedisError]
    that is not a [ConnectionError]). *)
Inductive reply : Type := Ok | Refused | TimedOut.

(** The client object together with the part of the outside world its
    methods act on.  [network] lists the replies to the commands yet to
    be sent, in order; once it is used up, commands succeed. *)
Record t : Type := {
  max_retries : nat;
  _redis_client : bool;
  network : list reply;
  published : list (string * pydict);
  sleeps : list Z
}.

(** [__init__] with its default [max_retries], before [_connect] runs. *)
Definition fresh (net : list reply) : t :=
  {| max_retries := 3; _redis_client := false; network := net;
     published := []; sleeps := [] |}.

Definition set_client (self : t) : t :=
  {| max_retries := max_retries self; _redis_client := true;
     network := network self; published := published self;
     sleeps := sleeps self |}.

Definition set_network (net : list reply) (self : t) : t :=
  {| max_retries := max_retries self; _redis_client := _redis_client self;
     network := net; published := published self; sleeps := sleeps self |}.

Definition sleep (seconds : Z) : M t unit :=
  modify (fun self =>
    {| max_retries := max_retries self; _redis_client := _redis_client self;
       network := network self; published := published self;
       sleeps := sleeps self ++ [seconds] |}).

(** One round trip to the server. *)
Definition command : M t unit :=
  fun self =>
    match network self with
    | [] => (self, Return tt)
    | Ok :: net => (set_network net self, Return tt)
    | Refused :: net => (set_network net self, Raise ConnectionError)
    | TimedOut :: net => (set_network net self, Raise TimeoutError)
    end.

(** [self._redis_client.ping()] *)
Definition ping : M t unit :=
  self <~ get ;;
  if _redis_client self then command
  else lift (Raise (AttributeError "ping")).

(** The loop of [_connect], from iteration [attempt] with [remaining]
    iterations to go. *)
Fixpoint _connect_loop (attempt remaining : nat) : M t unit :=
  match remaining with
  | O => ret tt
  | S remaining' =>
      try_except
        (_ <~ modify set_client ;; command)
        [(Return is_ConnectionError,
          if (remaining' =? 0)%nat then lift (Raise ConnectionError)
          else _ <~ sleep (2 ^ Z.of_nat attempt) ;;
               _connect_loop (S attempt) remaining')]
  end.

Definition _connect : M t unit :=
  self <~ get ;; _connect_loop 0 (max_retries self).

(** The decorator. *)
Definition _ensure_connection {A : Type} (func : M t A) : M t A :=
  _ <~ try_except ping
         [(Return (fun e => is_ConnectionError e || is_AttributeError e),
           _connect)] ;;
  func.

(** Looking up a method on [self._redis_client], which is [None] until
    [_connect] has assigned it. *)
Definition client_method (name : string) : M t unit :=
  self <~ get ;;
  if _redis_client self then ret tt
  else lift (Raise (AttributeError name)).

Definition record_publication (channel : string) (text : pydict) (self : t) : t :=
  {| max_retries := max_retries self; _redis_client := _redis_client self;
     network := network self;
     published := published self ++ [(channel, text)];
     sleeps := sleeps self |}.

Definition channel_of (symbol : string) : string := "tick:" ++ lower symbol.

Definition publish_tick (symbol : string) (data : pydict) : M t bool :=
  _ensure_connection
    (let channel := channel_of symbol in
     try_except
       (_ <~ client_method "publish" ;;
        text <~ lift (json.dumps data) ;;
        _ <~ command ;;
        _ <~ modify (record_publication channel text) ;;
        ret true)
       [(Return is_RedisError, ret false);
        (getattr json.names "JSONEncodeError" is_Exception, ret false)]).

(** What [pubsub.listen()] hands to the loop of [subscribe_to], one item
    per iteration: a message, with the reading [time.time()] gives in
    that iteration, its ["type"] and what [json.loads] makes of its
    ["data"]; or a [redis.RedisError] raised by the generator.  After the
    last item the generator blocks: no further message arrives. *)
Inductive listen_item (D : Type) : Type :=
  | Message (now : float) (type : string) (data : result D)
  | Broken.
Arguments Message {D} now type data.
Arguments Broken {D}.

(** How a subscription ends: the timeout test fired (at the given clock
    reading), a [redis.RedisError] was caught, or it has not ended: the
    call is still blocked in [listen()]. *)
Inductive ending : Type :=
  | TimeoutReached (now : float)
  | SubscriptionError
  | Listening.

(** [if timeout and (time.time() - start_time) > timeout] *)
Definition timed_out (timeout : option float) (start_time now : float) : bool :=
  match timeout with
  | Some T => float_truthy T && fgt (fsub now start_time) T
  | None => false
  end.

(** The [for message in pubsub.listen()] loop.  It returns the data the
    callback was called with, in order, and how the loop ended.  An
    exception raised by [json.loads] or by the callback is logged and
    the loop goes on. *)
Fixpoint listen_loop {D : Type} (timeout : option float) (start_time : float)
    (items : list (listen_item D)) : list D * ending :=
  match items with
  | [] => ([], Listening)
  | Broken :: _ => ([], SubscriptionError)
  | Message now type data :: rest =>
      if timed_out timeout start_time now then ([], TimeoutReached now)
      else
        let '(called, e) := listen_loop timeout start_time rest in
        if negb (String.eqb type "message") then (called, e)
        else
          match data with
          | Return d => (d :: called, e)
          | Raise _ => (called, e)
          end
  end.

(** [subscribe_to]: the connection check, [pubsub.subscribe(channel)],
    the reading of [start_time], the loop.  [pubsub.close()] runs when
    the loop has ended, and never while it is [Listening]. *)
Definition subscribe_to {D : Type} (symbol : string) (timeout : option float)
    (start_time : float) (items : list (listen_item D))
  : M t (list D * ending) :=
  _ensure_connection
    (_ <~ client_method "pubsub" ;;
     try_except
       (_ <~ command ;; ret (listen_loop timeout start_time items))
       [(Return is_RedisError, ret ([], SubscriptionError))]).

(** The names bound at module level once [redis_pubsub.py] has been
    imported (the [__main__] block does not run on import), and the
    attributes the class statement gives [RedisPubSub]. *)
Definition module_names : list string :=
  ["redis"; "json"; "logging"; "Any"; "Callable"; "Dict"; "Optional";
   "wraps"; "time"; "logger"; "RedisPubSub"].

Definition class_attributes : list string :=
  ["__init__"; "_connect"; "_ensure_connection"; "publish_tick";
   "subscribe_to"; "close"].

End RedisPubSub.

(** ** polygon_ws.py *)

Module PolygonWebSocketClient.

Definition TICKERS : list string := ["AAPL"; "MSFT"; "NVDA"; "TSLA"].
Definition RECONNECT_DELAY : Z := 5.
Definition MAX_RECONNECT_ATTEMPTS : nat := 5.

(** Line 6, [from redis_pubsub import publish_tick]: the name must be
    bound at module level in [redis_pubsub]. *)
Definition import_from (module_names : list string) (name : string)
  : result unit :=
  if bool_decide (name ∈ module_names) then Return tt
  else Raise (ImportError name).

(** Executing the module: the import of line 6 comes before every class
    and function definition of the file. *)
Definition load_module : result unit :=
  import_from RedisPubSub.module_names "publish_tick".

(** A decoded frame: text [json.loads] rejects, one object, or an array
    of objects. *)
Inductive frame : Type :=
  | Malformed
  | Single (tick : pydict)
  | Batch (ticks : list pydict).

Section Forwarding.
(** The bus the ticks go to, and whatever the global name
    [publish_tick] is bound to. *)
Context {W : Type}.
Variable publish_tick : string -> pydict -> M W bool.

Definition str_of (v : pyvalue) : result string :=
  match v with
  | PyStr s => Return s
  | _ => Raise (AttributeError "lower")
  end.

Definition process_tick (tick : pydict) : M W unit :=
  match dict_get "ev" tick with
  | Some (PyStr "T") =>
      try_except
        (sym <~ lift (getitem "sym" (dict_get "sym" tick)) ;;
         symbol <~ lift (str_of sym) ;;
         _ <~ publish_tick symbol tick ;;
         ret tt)
        [(Return is_KeyError, ret tt);
         (Return is_Exception, ret tt)]
  | _ => ret tt
  end.

Fixpoint process_ticks (ticks : list pydict) : M W unit :=
  match ticks with
  | [] => ret tt
  | tick :: rest => _ <~ process_tick tick ;; process_ticks rest
  end.

Definition on_message (message : frame) : M W unit :=
  match message with
  | Malformed => ret tt
  | Single tick => process_tick tick
  | Batch ticks => process_ticks ticks
  end.

Fixpoint on_messages (messages : list frame) : M W unit :=
  match messages with
  | [] => ret tt
  | m :: rest => _ <~ on_message m ;; on_messages rest
  end.

(** Running [polygon_ws.py] on a feed that delivers the given frames:
    the module is executed first, its handlers run afterwards. *)
Definition forward (messages : list frame) : M W unit :=
  _ <~ lift load_module ;; on_messages messages.
End Forwarding.

(** The reconnection state of the client.  [connected] tells whether a
    [WebSocketApp] started by [run] is alive; only a live one calls the
    handlers.  [ws] tells whether [self.ws] holds an app: it is [None]
    until [run] assigns it and nothing resets it. *)
Record t : Type := {
  reconnect_attempts : nat;
  should_reconnect : bool;
  connected : bool;
  ws : bool
}.

(** [__init__] *)
Definition init : t :=
  {| reconnect_attempts := 0; should_reconnect := true; connected := false;
     ws := false |}.

(** What the handlers do to the outside. *)
Inductive action : Type :=
  | Connect
  | Sleep (seconds : Z)
  | SendAuth
  | SendSubscribe (ticker : string)
  | CloseSocket.

(** [run]: a new [WebSocketApp], kept in [self.ws] and started on its own
    thread. *)
Definition run (self : t) : t * list action :=
  ({| reconnect_attempts := reconnect_attempts self;
      should_reconnect := should_reconnect self;
      connected := true;
      ws := true |}, [Connect]).

(** [on_close] is the last call a [WebSocketApp] makes.  The handler is
    taken as a whole, from its test to the call of [run]: the events
    below are handled one after the other, none during the wait of the
    handler. *)
Definition on_close (self : t) : t * list action :=
  let self := {| reconnect_attempts := reconnect_attempts self;
                 should_reconnect := should_reconnect self;
                 connected := false;
                 ws := ws self |} in
  if should_reconnect self
     && (reconnect_attempts self <? MAX_RECONNECT_ATTEMPTS)%nat
  then
    let self := {| reconnect_attempts := reconnect_attempts self + 1;
                   should_reconnect := should_reconnect self;
                   connected := connected self;
                   ws := ws self |} in
    let '(self, actions) := run self in
    (self, Sleep RECONNECT_DELAY :: actions)
  else (self, []).

Definition on_open (self : t) : t * list action :=
  ({| reconnect_attempts := 0;
      should_reconnect := should_reconnect self;
      connected := connected self;
      ws := ws self |},
   SendAuth :: map SendSubscribe TICKERS).

(** [handle_signal]: [self.ws.close()] is called whenever [self.ws] is
    set, on an app whose connection is over too. *)
Definition handle_signal (self : t) : t * list action :=
  ({| reconnect_attempts := reconnect_attempts self;
      should_reconnect := false;
      connected := connected self;
      ws := ws self |},
   if ws self then [CloseSocket] else []).

(** What happens to the client: the socket library reports an open or a
    close of the running connection, or the process receives a signal. *)
Inductive event : Type := Opened | Closed | Signalled.

Definition step (self : t) (ev : event) : t * list action :=
  match ev with
  | Signalled => handle_signal self
  | Opened => if connected self then on_open self else (self, [])
  | Closed => if connected self then on_close self else (self, [])
  end.

Fixpoint steps (self : t) (evs : list event) : t * list action :=
  match evs with
  | [] => (self, [])
  | ev :: rest =>
      let '(self', actions) := step self ev in
      let '(self'', actions') := steps self' rest in
      (self'', actions ++ actions')
  end.

Definition is_Opened (ev : event) : bool :=
  match ev with Opened => true | _ => false end.

(** The number of connection attempts among the actions. *)
Definition is_Connect (a : action) : bool :=
  match a with Connect => true | _ => false end.

Definition connects (actions : list action) : nat :=
  length (List.filter is_Connect actions).

End PolygonWebSocketClient.

(** ** The test cases of strategy.py (lines 76-121) *)

Module TestCases.
Import MomentumScanner.

(** [{"p": price}] *)
Definition price_only (price : float) : Tick :=
  {| tick_ev := None; tick_sym := None; tick_p := Some price;
     tick_t := None; tick_s := None |}.

(** [needle in text] on strings. *)
Fixpoint contains (needle text : string) : bool :=
  String.prefix needle text
  || match text with
     | EmptyString => false
     | String _ text' => contains needle text'
     end.

Definition simulated_history : list Tick :=
  map (fun z => price_only (float_of_Z z)) [1130; 1132; 1134; 1136; 1138]%Z.

Definition run_test_case (tick : Tick) (base_price spy_price : float)
  : M t bool :=
  _ <~ update_spy (price_only spy_price) ;;
  _ <~ modify (fun self =>
         {| tick_history := ∅;
            spy_price := MomentumScanner.spy_price self |}) ;;
  sym <~ lift (getitem "sym" (tick_sym tick)) ;;
  _ <~ (if contains "NVDA" sym
        then modify (set_history "NVDA" simulated_history)
        else ret tt) ;;
  evaluate_tick tick base_price.

(** The tick of the case "Valid entry signal", for a clock reading [now]
    in milliseconds. *)
Definition valid_entry_tick (now : Z) : Tick :=
  {| tick_ev := None; tick_sym := Some "NVDA";
     tick_p := Some (float_of_Z 1140); tick_t := Some now;
     tick_s := Some 1200%Z |}.

(** 2024-01-02 15:50:00 UTC, inside the target window. *)
Definition in_window : Z := 1704210600000.

End TestCases.

(** ** Concrete inputs used in Part II *)

Module Examples.

(** Two trade ticks whose symbols differ in letter case only. *)
Definition nvda_lower : Tick :=
  {| tick_ev := Some "T"; tick_sym := Some "nvda";
     tick_p := Some (float_of_Z 1138); tick_t := Some TestCases.in_window;
     tick_s := Some 1200%Z |}.

Definition nvda_upper : Tick :=
  {| tick_ev := Some "T"; tick_sym := Some "NVDA";
     tick_p := Some (float_of_Z 1140); tick_t := Some TestCases.in_window;
     tick_s := Some 1200%Z |}.

(** Eleven NVDA ticks in a row, with prices 1130 to 1140. *)
Definition nvda_at (price : Z) : Tick :=
  {| tick_ev := Some "T"; tick_sym := Some "NVDA";
     tick_p := Some (float_of_Z price); tick_t := Some TestCases.in_window;
     tick_s := Some 1200%Z |}.

Definition ten_ticks : list MomentumScanner.operation :=
  map (fun z => MomentumScanner.EvaluateTick (nvda_at z) (float_of_Z 1100))
      [1130; 1131; 1132; 1133; 1134; 1135; 1136; 1137; 1138; 1139]%Z.

(** A scanner that has seen a reference tick. *)
Definition with_reference : MomentumScanner.t :=
  {| MomentumScanner.tick_history := ∅;
     MomentumScanner.spy_price := Some (float_of_Z 530) |}.

(** A client whose connection is up and stays up. *)
Definition connected_client : RedisPubSub.t :=
  RedisPubSub.set_client (RedisPubSub.fresh []).

(** A client that has lost its server: every command is refused. *)
Definition cut_off_client : RedisPubSub.t :=
  RedisPubSub.set_client
    (RedisPubSub.fresh
       [RedisPubSub.Refused; RedisPubSub.Refused; RedisPubSub.Refused;
        RedisPubSub.Refused]).

(** [{"sym": "AAPL", "p": 182.75}], and the same with the price as bytes. *)
Definition aapl_tick : pydict :=
  [("sym", PyStr "AAPL");
   ("p", PyFloat (binary_normalize 53 1024 731 (-2) false))].

Definition aapl_bytes : pydict :=
  [("sym", PyStr "AAPL"); ("p", PyBytes "182.75")].

(** A subscription made at clock reading 1000 with [timeout=5], on a
    channel that confirms the subscription and then stays silent. *)
Definition silent_channel : list (RedisPubSub.listen_item pydict) :=
  [RedisPubSub.Message (float_of_Z 1000) "subscribe" (Raise TypeError)].

End Examples.

(** ** main.py, continued: [TradingBot.run] *)

Module TradingBotRun.
Import TradingBot.

(** [self.base_prices.keys()]: a dict lists its keys in the order they
    were inserted. *)
Definition symbols : list string := ["SPY"; "AAPL"; "MSFT"; "NVDA"; "TSLA"].

(** Where [run] stands once the feeds have given what they have: blocked
    in the subscription to a symbol; in the [while self.running] loop,
    every subscription being over; or out of the [try] block on an
    exception, which is logged before [cleanup] runs. *)
Inductive standing : Type :=
  | ListeningTo (symbol : string)
  | Waiting
  | Failed (e : exception).

(** The [for symbol in ...] loop of [run].  [subscribe_to] is called with
    [self.handle_tick] as callback and [timeout=None] and returns only
    when its loop has ended; [feed symbol] is what [listen()] yields to
    that call and [clock symbol] the reading it takes as [start_time].
    The pause of a tenth of a second between two subscriptions has no
    effect on the state and is left out. *)
Fixpoint subscribe_each (symbols : list string)
    (feed : string -> list (RedisPubSub.listen_item Tick))
    (clock : string -> float) (bot : t) (bus : RedisPubSub.t)
  : RedisPubSub.t * t * standing :=
  match symbols with
  | [] => (bus, bot, Waiting)
  | symbol :: rest =>
      match RedisPubSub.subscribe_to symbol None (clock symbol)
              (feed symbol) bus with
      | (bus', Return (called, ending)) =>
          let bot' := handle_ticks called bot in
          match ending with
          | RedisPubSub.Listening => (bus', bot', ListeningTo symbol)
          | _ => subscribe_each rest feed clock bot' bus'
          end
      | (bus', Raise e) => (bus', bot, Failed e)
      end
  end.

Definition run (feed : string -> list (RedisPubSub.listen_item Tick))
    (clock : string -> float) (bot : t) (bus : RedisPubSub.t)
  : RedisPubSub.t * t * standing :=
  subscribe_each symbols feed clock bot bus.

End TradingBotRun.

(** ** Vocabulary for the properties of Part II *)

Module Vocabulary.
Import MomentumScanner.

(** The ticks among the operations that [evaluate_tick] files under
    [symbol]: those carrying that symbol, a price and a timestamp. *)
Definition filed_under (symbol : string) (o : operation) : option Tick :=
  match o with
  | EvaluateTick tick _ =>
      if bool_decide (tick_sym tick = Some symbol /\ well_formed tick)
      then Some tick else None
  | UpdateSpy _ => None
  end.

Definition evaluated_for (symbol : string) (ops : list operation) : list Tick :=
  omap (filed_under symbol) ops.

(** Every stored tick sits in the history of the symbol it carries and has
    a price and a timestamp. *)
Definition well_filed (self : t) : Prop :=
  forall symbol tick,
    tick ∈ history self symbol ->
    tick_sym tick = Some symbol /\ well_formed tick.

(** The data the callback of a subscription gets from one item of
    [listen()], if any. *)
Definition payload {D : Type} (item : RedisPubSub.listen_item D) : option D :=
  match item with
  | RedisPubSub.Message _ type (Return d) =>
      if String.eqb type "message" then Some d else None
  | _ => None
  end.

Definition is_Broken {D : Type} (item : RedisPubSub.listen_item D) : bool :=
  match item with
  | RedisPubSub.Broken => true
  | _ => false
  end.

(** A record of the bot's log that reports a division by zero. *)
Definition logs_zero_division (r : TradingBot.log_record) : bool :=
  match r with
  | TradingBot.ProcessingError _ ZeroDivisionError => true
  | _ => false
  end.

(** A symbol made of ASCII characters only, on which [upper] and [lower]
    are [str.upper()] and [str.lower()]. *)
Definition is_ascii (s : string) : bool :=
  forallb (fun c => (nat_of_ascii c <? 128)%nat) (list_ascii_of_string s).

(** An item of [listen()] on which the timeout test of the loop fires. *)
Definition late {D : Type} (timeout : option float) (start_time : float)
    (item : RedisPubSub.listen_item D) : bool :=
  match item with
  | RedisPubSub.Message now _ _ => RedisPubSub.timed_out timeout start_time now
  | RedisPubSub.Broken => false
  end.

(** The waits of [_connect] before its attempts number 1 to [k]: 1, 2, 4,
    ... seconds. *)
Definition backoff (k : nat) : list Z :=
  map (fun attempt => (2 ^ Z.of_nat attempt)%Z) (seq 0 k).

(** The client once [_connect] has gone through [waits] and left [net] of
    the network's replies unread. *)
Definition reconnected (net : list RedisPubSub.reply) (waits : list Z)
    (self : RedisPubSub.t) : RedisPubSub.t :=
  {| RedisPubSub.max_retries := RedisPubSub.max_retries self;
     RedisPubSub._redis_client := true;
     RedisPubSub.network := net;
     RedisPubSub.published := RedisPubSub.published self;
     RedisPubSub.sleeps := RedisPubSub.sleeps self ++ waits |}.

End Vocabulary.

(** * Part II: properties *)

(** Unfolding the operations on [M]. *)
Ltac monad_unfold :=
  unfold try_except, bindM, lift, ret, get, modify; cbn beta.

(** ** Floats and slices *)

Lemma SFltb_irrefl (x : float) : SFltb x x = false.
Proof.
  destruct x as [s | s | | s m e]; unfold SFltb, SFcompare;
    try destruct s; try reflexivity;
    rewrite Z.compare_refl, ?Pos.compare_refl, ?Pos.compare_cont_refl;
    try reflexivity.
Qed.

Lemma fgt_irrefl (x : float) : fgt x x = false.
Proof. apply SFltb_irrefl. Qed.

Lemma slice_last_length {A : Type} (n : nat) (l : list A) :
  (0 < n)%nat -> length (slice_last n l) = Nat.min n (length l).
Proof.
  intros Hn. unfold slice_last. destruct n as [| n']; [lia |].
  rewrite length_drop. lia.
Qed.

Lemma slice_last_snoc {A : Type} (n : nat) (l : list A) (x : A) :
  (0 < n)%nat -> exists l', slice_last n (l ++ [x]) = l' ++ [x].
Proof.
  intros Hn. unfold slice_last. destruct n as [| n']; [lia |].
  rewrite length_app. cbn [length].
  exists (drop (length l + 1 - S n') l).
  rewrite drop_app_le by lia. reflexivity.
Qed.

(** ** The momentum engine *)

Section MomentumScannerFacts.
Import MomentumScanner.

Lemma spy_price_set_history symbol h self :
  spy_price (set_history symbol h self) = spy_price self.
Proof. reflexivity. Qed.

Lemma history_set_history symbol h self :
  history (set_history symbol h self) symbol = h.
Proof. unfold history, set_history; cbn. by rewrite lookup_insert_eq. Qed.

Lemma history_set_history_ne symbol symbol' h self :
  symbol <> symbol' ->
  history (set_history symbol h self) symbol' = history self symbol'.
Proof.
  intros Hne. unfold history, set_history; cbn.
  by rewrite lookup_insert_ne.
Qed.

Lemma spy_price_compact symbol self :
  spy_price (compact symbol self) = spy_price self.
Proof. unfold compact. by case_match. Qed.

(** The history of [symbol] once lines 53-55 have run. *)
Lemma history_recorded symbol tick self :
  history (compact symbol (append_tick symbol tick self)) symbol =
    let h := history self symbol ++ [tick] in
    if (HISTORY_WINDOW * 2 <? length h)%nat
    then slice_last HISTORY_WINDOW h else h.
Proof.
  unfold compact, append_tick. rewrite history_set_history.
  cbn zeta. case_match; by rewrite ?history_set_history.
Qed.

Lemma history_recorded_ne symbol symbol' tick self :
  symbol <> symbol' ->
  history (compact symbol (append_tick symbol tick self)) symbol' =
    history self symbol'.
Proof.
  intros Hne. unfold compact, append_tick.
  case_match; by rewrite !history_set_history_ne.
Qed.

(** The tick just recorded is the newest entry of its history. *)
Lemma history_recorded_snoc symbol tick self :
  exists older,
    history (compact symbol (append_tick symbol tick self)) symbol =
      older ++ [tick].
Proof.
  rewrite history_recorded. cbn zeta. case_match.
  - apply slice_last_snoc. unfold HISTORY_WINDOW. lia.
  - by eexists.
Qed.

(** Whatever [evaluate_tick] answers, lines 53-55 have run on the state
    it leaves. *)
Lemma evaluate_tick_state tick base_price self symbol price timestamp :
  tick_sym tick = Some symbol ->
  tick_p tick = Some price ->
  tick_t tick = Some timestamp ->
  fst (evaluate_tick tick base_price self) =
    compact symbol (append_tick symbol tick self).
Proof.
  intros Hs Hp Ht.
  unfold evaluate_tick, bindM, lift, modify, get, ret.
  rewrite Hs, Hp, Ht. cbn [getitem].
  repeat first [reflexivity | case_match; simplify_eq; cbn [fst]].
Qed.

(** A tick lacking one of the three keys is rejected with [KeyError]
    before anything is stored. *)
Lemma evaluate_tick_malformed tick base_price self :
  ~ well_formed tick ->
  fst (evaluate_tick tick base_price self) = self.
Proof.
  intros Hwf. unfold evaluate_tick, bindM, lift.
  destruct (tick_sym tick) as [symbol |] eqn:Hs; [| reflexivity].
  destruct (tick_p tick) as [price |] eqn:Hp; [| reflexivity].
  destruct (tick_t tick) as [timestamp |] eqn:Ht; [| reflexivity].
  exfalso. apply Hwf. unfold well_formed. rewrite Hs, Hp, Ht. eauto.
Qed.

Lemma update_spy_history tick self symbol :
  history (fst (update_spy tick self)) symbol = history self symbol.
Proof.
  unfold update_spy, bindM, lift, modify.
  destruct (tick_p tick); reflexivity.
Qed.

(** *** The bound on the stored histories *)

Lemma bounded_init : bounded init.
Proof. intros symbol. unfold history, init; cbn. rewrite lookup_empty. cbn. lia. Qed.

Lemma bounded_recorded symbol tick self :
  bounded self -> bounded (compact symbol (append_tick symbol tick self)).
Proof.
  intros Hb other. destruct (decide (symbol = other)) as [<- | Hne].
  - rewrite history_recorded. cbn zeta. case_match eqn:Hlen.
    + rewrite slice_last_length by (unfold HISTORY_WINDOW; lia). lia.
    + apply Nat.ltb_ge in Hlen. lia.
  - rewrite history_recorded_ne by done. apply Hb.
Qed.

Lemma bounded_apply self o : bounded self -> bounded (apply self o).
Proof.
  intros Hb. destruct o as [tick | tick base_price]; cbn [apply].
  - intros symbol. rewrite update_spy_history. apply Hb.
  - destruct (tick_sym tick) as [symbol |] eqn:Hs;
      [destruct (tick_p tick) as [price |] eqn:Hp;
       [destruct (tick_t tick) as [timestamp |] eqn:Ht |] |].
    + rewrite (evaluate_tick_state _ _ _ _ _ _ Hs Hp Ht).
      by apply bounded_recorded.
    + rewrite evaluate_tick_malformed; [done |].
      intros (_ & _ & [? Hc]). congruence.
    + rewrite evaluate_tick_malformed; [done |].
      intros (_ & [? Hc] & _). congruence.
    + rewrite evaluate_tick_malformed; [done |].
      intros ([? Hc] & _). congruence.
Qed.

Lemma bounded_foldl ops : forall self, bounded self -> bounded (foldl apply self ops).
Proof.
  induction ops as [| o ops IH]; intros self Hb; cbn [foldl]; [done |].
  apply IH. by apply bounded_apply.
Qed.

Lemma bounded_run ops : bounded (run ops).
Proof. apply bounded_foldl, bounded_init. Qed.

(** *** The answer of [evaluate_tick] *)

Lemma mapM_snoc {A B : Type} (f : A -> result B) (l : list A) (x : A) :
  mapM f (l ++ [x]) =
    (bs <- mapM f l ;; b <- f x ;; Return (bs ++ [b])).
Proof.
  induction l as [| a l IH]; cbn [mapM app bind].
  - destruct (f x); reflexivity.
  - destruct (f a) as [b |]; cbn [bind]; [| reflexivity].
    rewrite IH. destruct (mapM f l) as [bs |]; cbn [bind]; [| reflexivity].
    destruct (f x); reflexivity.
Qed.

Lemma mapM_getitem_raises {A : Type} (key : string) (g : Tick -> option A)
    (l : list Tick) (e : exception) :
  mapM (fun tick => getitem key (g tick)) l = Raise e -> e = KeyError key.
Proof.
  induction l as [| tick l IH]; cbn [mapM]; [discriminate |].
  destruct (g tick); cbn [getitem bind]; [| congruence].
  destruct (mapM _ l); cbn [bind]; [discriminate |].
  intros [= <-]. by apply IH.
Qed.

Lemma _is_momentum_up_raises self symbol price e :
  _is_momentum_up self symbol price = Raise e -> e = KeyError "p".
Proof.
  unfold _is_momentum_up. case_match; [discriminate |].
  destruct (mapM _ _) eqn:Hm; cbn [bind]; [discriminate |].
  intros [= <-]. by eapply mapM_getitem_raises.
Qed.

(** The check never passes on a history whose newest entry is the tick
    being evaluated: the current price does not exceed itself. *)
Lemma _is_momentum_up_newest self symbol older tick price :
  history self symbol = older ++ [tick] ->
  tick_p tick = Some price ->
  _is_momentum_up self symbol price <> Return true.
Proof.
  intros Hh Hp. unfold _is_momentum_up. rewrite Hh.
  case_match; [discriminate |].
  destruct (slice_last_snoc HISTORY_WINDOW older tick) as [recent ->];
    [unfold HISTORY_WINDOW; lia |].
  rewrite mapM_snoc, Hp. cbn [getitem].
  destruct (mapM _ recent) as [prices |]; cbn [bind]; [| discriminate].
  rewrite forallb_app. cbn [forallb]. rewrite fgt_irrefl.
  rewrite andb_false_r. discriminate.
Qed.

Lemma _in_final_15_minutes_raises timestamp e :
  _in_final_15_minutes timestamp = Raise e -> e = ValueError.
Proof.
  unfold _in_final_15_minutes, fromtimestamp_utc.
  case_match; cbn [bind]; congruence.
Qed.

Lemma relative_strength_zero self price base_price :
  SFeqb base_price (S754_zero false) = true ->
  _calculate_relative_strength self price base_price = Raise ZeroDivisionError.
Proof.
  intros Hz. unfold _calculate_relative_strength, truediv. by rewrite Hz.
Qed.

Lemma relative_strength_nonzero self price base_price :
  SFeqb base_price (S754_zero false) = false ->
  exists r, _calculate_relative_strength self price base_price = Return r.
Proof.
  intros Hz. unfold _calculate_relative_strength, truediv. rewrite Hz.
  cbn [bind]. destruct (spy_price self) as [spy |]; [| by eexists].
  destruct (float_truthy spy); by eexists.
Qed.

(** The answer for a tick carrying the three keys, as a function of the
    state lines 53-55 leave. *)
Lemma evaluate_tick_answer tick base_price self symbol price timestamp :
  tick_sym tick = Some symbol ->
  tick_p tick = Some price ->
  tick_t tick = Some timestamp ->
  snd (evaluate_tick tick base_price self) =
    let self' := compact symbol (append_tick symbol tick self) in
    match spy_price self with
    | None => Return false
    | Some _ =>
        in_window <- _in_final_15_minutes timestamp ;;
        if negb in_window then Return false
        else
          rel_strength <- _calculate_relative_strength self' price base_price ;;
          if flt rel_strength MOMENTUM_THRESHOLD then Return false
          else if (default 0 (tick_s tick) <? VOLUME_THRESHOLD)%Z then Return false
          else
            momentum_up <- _is_momentum_up self' symbol price ;;
            if negb momentum_up then Return false else Return true
    end.
Proof.
  intros Hs Hp Ht.
  unfold evaluate_tick, bindM, lift, modify, get, ret.
  rewrite Hs, Hp, Ht. cbn [getitem]. cbn zeta.
  rewrite spy_price_compact. unfold append_tick at 1.
  rewrite spy_price_set_history.
  destruct (spy_price self) as [spy |]; [| reflexivity].
  destruct (_in_final_15_minutes timestamp) as [[] |]; cbn [bind negb snd];
    [| reflexivity | reflexivity].
  destruct (_calculate_relative_strength _ price base_price) as [rel |];
    cbn [bind snd]; [| reflexivity].
  destruct (flt rel MOMENTUM_THRESHOLD); [reflexivity |].
  destruct (_ <? _)%Z; [reflexivity |].
  destruct (_is_momentum_up _ symbol price) as [[] |]; reflexivity.
Qed.

(** [evaluate_tick] never answers true: by the time the momentum check
    runs, the tick under evaluation is the newest entry of the history
    the check reads. *)
Lemma evaluate_tick_never_signals tick base_price self :
  snd (evaluate_tick tick base_price self) <> Return true.
Proof.
  destruct (tick_sym tick) as [symbol |] eqn:Hs;
    [destruct (tick_p tick) as [price |] eqn:Hp;
     [destruct (tick_t tick) as [timestamp |] eqn:Ht |] |];
    try (unfold evaluate_tick, bindM, lift; rewrite ?Hs, ?Hp, ?Ht;
         cbn; discriminate).
  rewrite (evaluate_tick_answer _ _ _ _ _ _ Hs Hp Ht). cbn zeta.
  destruct (history_recorded_snoc symbol tick self) as [older Hh].
  pose proof (_is_momentum_up_newest _ _ _ _ _ Hh Hp) as Hup.
  destruct (spy_price self); [| discriminate].
  destruct (_in_final_15_minutes timestamp) as [[] |]; cbn [bind negb];
    try discriminate.
  destruct (_calculate_relative_strength _ _ _); cbn [bind]; try discriminate.
  destruct (flt _ _); try discriminate.
  destruct (_ <? _)%Z; try discriminate.
  destruct (_is_momentum_up _ _ _) as [[] |]; cbn [bind negb];
    congruence.
Qed.

(** What the momentum check computes on the history it is handed: it
    passes exactly when that history has at least [HISTORY_WINDOW]
    entries and the current price exceeds the price of each of the last
    [HISTORY_WINDOW] of them. *)
Lemma _is_momentum_up_true self symbol current_price :
  _is_momentum_up self symbol current_price = Return true <->
    (HISTORY_WINDOW <= length (history self symbol))%nat
    /\ Forall (fun tick => exists prev_price,
                 tick_p tick = Some prev_price
                 /\ fgt current_price prev_price = true)
              (slice_last HISTORY_WINDOW (history self symbol)).
Proof.
  unfold _is_momentum_up.
  destruct (length (history self symbol) <? HISTORY_WINDOW)%nat eqn:Hlen.
  - apply Nat.ltb_lt in Hlen. split; [discriminate | lia].
  - apply Nat.ltb_ge in Hlen.
    generalize (slice_last HISTORY_WINDOW (history self symbol)) as recent.
    intros recent. split.
    + intros Hup. split; [exact Hlen |].
      revert Hup. induction recent as [| tick recent IH]; [constructor |].
      cbn [mapM]. destruct (tick_p tick) as [prev |] eqn:Hp;
        cbn [getitem bind]; [| discriminate].
      destruct (mapM _ recent) as [prices |]; cbn [bind forallb];
        [| discriminate].
      intros [= Hall]. apply andb_true_iff in Hall as [Hgt Hrest].
      constructor; [by exists prev |]. apply IH. cbn [bind]. by rewrite Hrest.
    + intros [_ Hall].
      induction Hall as [| tick recent (prev & Hp & Hgt) _ IH]; [reflexivity |].
      cbn [mapM]. rewrite Hp. cbn [getitem bind].
      destruct (mapM _ recent) as [prices |]; cbn [bind forallb] in *;
        [| discriminate].
      injection IH as ->. by rewrite Hgt.
Qed.

(** C1.  On the input of the test case "Valid entry signal" (reference
    price 530.0, base price 1100.0, price 1140.0, size 1200, a timestamp
    inside the window, five rising earlier prices below 1140.0)
    [evaluate_tick] answers false, although every gate before the
    momentum check passes and the check itself passes on the history as
    it was before the tick was appended. *)
Theorem valid_entry_signal_rejected :
  let tick := TestCases.valid_entry_tick TestCases.in_window in
  let before :=
    {| tick_history := {[ "NVDA" := TestCases.simulated_history ]};
       spy_price := Some (float_of_Z 530) |} in
  snd (TestCases.run_test_case tick (float_of_Z 1100) (float_of_Z 530) init)
    = Return false
  /\ snd (evaluate_tick tick (float_of_Z 1100) before) = Return false
  /\ _in_final_15_minutes TestCases.in_window = Return true
  /\ _is_momentum_up before "NVDA" (float_of_Z 1140) = Return true
  /\ _is_momentum_up (fst (evaluate_tick tick (float_of_Z 1100) before))
       "NVDA" (float_of_Z 1140) = Return false.
Proof. repeat split; vm_compute; reflexivity. Qed.

(** C9.  For a tick carrying ["sym"], ["p"] and ["t"], [evaluate_tick]
    raises [ZeroDivisionError] exactly when the base price is zero, a
    reference price is set and the timestamp is inside the window, that
    is when the relative strength gets computed; nothing guards the
    division, and the tick is the newest entry of its history by then.
    With a base price other than zero the division never raises. *)
Theorem evaluate_tick_division_by_zero
    tick base_price self symbol price timestamp :
  tick_sym tick = Some symbol ->
  tick_p tick = Some price ->
  tick_t tick = Some timestamp ->
  (snd (evaluate_tick tick base_price self) = Raise ZeroDivisionError
   <-> SFeqb base_price (S754_zero false) = true
       /\ is_Some (spy_price self)
       /\ _in_final_15_minutes timestamp = Return true)
  /\ last (history (fst (evaluate_tick tick base_price self)) symbol)
     = Some tick.
Proof.
  intros Hs Hp Ht. split.
  - rewrite (evaluate_tick_answer _ _ _ _ _ _ Hs Hp Ht). cbn zeta.
    destruct (spy_price self) as [spy |].
    2: { split; [discriminate | intros (_ & [? Hc] & _); discriminate]. }
    destruct (_in_final_15_minutes timestamp) as [[] | e] eqn:Hw;
      cbn [bind negb].
    + destruct (SFeqb base_price (S754_zero false)) eqn:Hz.
      * rewrite relative_strength_zero by done. cbn [bind]. by eauto.
      * destruct (relative_strength_nonzero
                    (compact symbol (append_tick symbol tick self))
                    price base_price Hz) as [r ->].
        cbn [bind]. split; [| intros (Hc & _); discriminate].
        destruct (flt _ _); [discriminate |].
        destruct (_ <? _)%Z; [discriminate |].
        destruct (_is_momentum_up _ _ _) as [[] | e] eqn:Hup;
          cbn [bind negb]; try discriminate.
        apply _is_momentum_up_raises in Hup as ->. discriminate.
    + split; [discriminate | intros (_ & _ & Hc); discriminate].
    + apply _in_final_15_minutes_raises in Hw as ->.
      split; [discriminate | intros (_ & _ & Hc); discriminate].
  - rewrite (evaluate_tick_state _ _ _ _ _ _ Hs Hp Ht).
    destruct (history_recorded_snoc symbol tick self) as [older ->].
    apply last_snoc.
Qed.

Lemma evaluate_tick_division_by_zero_witness :
  let run := evaluate_tick Examples.nvda_upper (float_of_Z 0)
               Examples.with_reference in
  snd run = Raise ZeroDivisionError
  /\ last (history (fst run) "NVDA") = Some Examples.nvda_upper.
Proof.
  pose proof (evaluate_tick_division_by_zero Examples.nvda_upper
                (float_of_Z 0) Examples.with_reference "NVDA"
                (float_of_Z 1140) TestCases.in_window
                eq_refl eq_refl eq_refl) as [Hraise Hlast].
  split; [| exact Hlast].
  apply Hraise. split; [reflexivity |]. split; [by eexists | reflexivity].
Defined.

(** C4.  Whatever operations a fresh scanner has gone through, no stored
    history is longer than twice the window; and when a well-formed tick
    is evaluated next, the history of its symbol becomes the old one
    with the tick appended, cut down to its last [HISTORY_WINDOW] entries
    (in their order) exactly when the append made it longer than twice
    the window. *)
Theorem history_bounded_and_compacted
    ops tick base_price symbol price timestamp :
  tick_sym tick = Some symbol ->
  tick_p tick = Some price ->
  tick_t tick = Some timestamp ->
  let self := run ops in
  let self' := fst (evaluate_tick tick base_price self) in
  let appended := history self symbol ++ [tick] in
  (forall s, (length (history self s) <= 2 * HISTORY_WINDOW)%nat)
  /\ history self' symbol =
       (if (2 * HISTORY_WINDOW <? length appended)%nat
        then drop (length appended - HISTORY_WINDOW) appended
        else appended)
  /\ length (history self' symbol) =
       (if (2 * HISTORY_WINDOW <? length appended)%nat
        then HISTORY_WINDOW
        else length appended).
Proof.
  intros Hs Hp Ht self self' appended.
  assert (Hh : history self' symbol =
               if (2 * HISTORY_WINDOW <? length appended)%nat
               then drop (length appended - HISTORY_WINDOW) appended
               else appended).
  { subst self'. rewrite (evaluate_tick_state _ _ _ _ _ _ Hs Hp Ht).
    rewrite history_recorded. reflexivity. }
  split; [apply bounded_run |]. split; [exact Hh |].
  rewrite Hh. case_match eqn:Hlen; [| reflexivity].
  apply Nat.ltb_lt in Hlen. rewrite length_drop. lia.
Qed.

Lemma history_bounded_and_compacted_witness :
  let self := run Examples.ten_ticks in
  let tick := Examples.nvda_at 1140 in
  let self' := fst (evaluate_tick tick (float_of_Z 1100) self) in
  let appended := history self "NVDA" ++ [tick] in
  (2 * HISTORY_WINDOW <? length appended)%nat = true
  /\ (forall s, (length (history self s) <= 2 * HISTORY_WINDOW)%nat)
  /\ history self' "NVDA" =
       (if (2 * HISTORY_WINDOW <? length appended)%nat
        then drop (length appended - HISTORY_WINDOW) appended
        else appended)
  /\ length (history self' "NVDA") =
       (if (2 * HISTORY_WINDOW <? length appended)%nat
        then HISTORY_WINDOW
        else length appended).
Proof.
  split; [vm_compute; reflexivity |].
  exact (history_bounded_and_compacted Examples.ten_ticks
           (Examples.nvda_at 1140) (float_of_Z 1100) "NVDA"
           (float_of_Z 1140) TestCases.in_window
           eq_refl eq_refl eq_refl).
Defined.

(** C6.  For a tick carrying ["sym"], ["p"] and ["t"], in any state of
    the engine and whatever [evaluate_tick] answers (true, false or an
    exception of a later step), the state it leaves has the tick appended
    to the history of its symbol, and compacted: the tick is the newest
    entry there, the other histories and the reference price are
    untouched. *)
Theorem evaluate_tick_always_records
    tick base_price self symbol price timestamp :
  tick_sym tick = Some symbol ->
  tick_p tick = Some price ->
  tick_t tick = Some timestamp ->
  let self' := fst (evaluate_tick tick base_price self) in
  self' = compact symbol (append_tick symbol tick self)
  /\ last (history self' symbol) = Some tick
  /\ (forall other, symbol <> other -> history self' other = history self other)
  /\ spy_price self' = spy_price self.
Proof.
  intros Hs Hp Ht self'. subst self'.
  rewrite (evaluate_tick_state _ _ _ _ _ _ Hs Hp Ht).
  split; [reflexivity |]. split; [| split].
  - destruct (history_recorded_snoc symbol tick self) as [older ->].
    apply last_snoc.
  - intros other Hne. by apply history_recorded_ne.
  - by rewrite spy_price_compact.
Qed.

Lemma evaluate_tick_always_records_witness :
  let run := evaluate_tick Examples.nvda_upper (float_of_Z 1100) init in
  snd run = Return false
  /\ last (history (fst run) "NVDA") = Some Examples.nvda_upper.
Proof.
  split; [vm_compute; reflexivity |].
  exact (proj1 (proj2 (evaluate_tick_always_records
           Examples.nvda_upper (float_of_Z 1100) init "NVDA"
           (float_of_Z 1140) TestCases.in_window eq_refl eq_refl eq_refl))).
Defined.

(** C7.  While no reference tick has arrived ([spy_price] is [None]),
    [evaluate_tick] answers false for every tick carrying ["sym"], ["p"]
    and ["t"] and every base price, whatever the price, the size, the
    symbol and the timestamp are. *)
Theorem evaluate_tick_without_reference tick base_price self :
  spy_price self = None ->
  well_formed tick ->
  snd (evaluate_tick tick base_price self) = Return false.
Proof.
  intros Hspy ([symbol Hs] & [price Hp] & [timestamp Ht]).
  unfold evaluate_tick, bindM, lift, modify, get, ret.
  rewrite Hs, Hp, Ht. cbn [getitem].
  rewrite spy_price_compact. unfold append_tick.
  rewrite spy_price_set_history, Hspy. reflexivity.
Qed.

Lemma evaluate_tick_without_reference_witness :
  snd (evaluate_tick (TestCases.valid_entry_tick TestCases.in_window)
         (float_of_Z 1100) init) = Return false.
Proof.
  apply evaluate_tick_without_reference; [reflexivity |].
  unfold well_formed; cbn; eauto.
Defined.
End MomentumScannerFacts.

(** ** The orchestrator *)

Section TradingBotFacts.
Import MomentumScanner TradingBot.

(** A tick that is routed to [evaluate_tick] is stored under the symbol
    as the tick spells it, while its base price was looked up under the
    upper-cased symbol. *)
Lemma handle_tick_history_key tick self sym price timestamp base_price :
  tick_sym tick = Some sym ->
  tick_p tick = Some price ->
  tick_t tick = Some timestamp ->
  upper sym <> "SPY" ->
  base_prices self !! upper sym = Some base_price ->
  float_truthy base_price = true ->
  scanner (fst (handle_tick tick self)) =
    compact sym (append_tick sym tick (scanner self)).
Proof.
  intros Hs Hp Ht Hspy Hbase Htruthy.
  pose proof (evaluate_tick_state tick base_price (scanner self) _ _ _ Hs Hp Ht)
    as Hstate.
  unfold handle_tick, validate_tick, dispatch. rewrite Hs, Hp.
  rewrite !bool_decide_eq_true_2 by eauto. cbn [andb negb].
  apply String.eqb_neq in Hspy. rewrite Hspy, Hbase, Htruthy.
  destruct (evaluate_tick tick base_price (scanner self)) as [sc [[] | e]];
    cbn [fst] in *; by subst.
Qed.

(** C5.  Two ticks that spell the same symbol in different letter case,
    handled one after the other by a fresh bot, end up in two histories:
    ["nvda"] holds the first and ["NVDA"] the second, although both were
    routed under the upper-cased symbol ["NVDA"]. *)
Theorem case_variants_get_separate_histories :
  let bot := handle_ticks [Examples.nvda_lower; Examples.nvda_upper] init in
  upper "nvda" = "NVDA"
  /\ history (scanner bot) "nvda" = [Examples.nvda_lower]
  /\ history (scanner bot) "NVDA" = [Examples.nvda_upper].
Proof. repeat split; vm_compute; reflexivity. Qed.
End TradingBotFacts.

(** ** The distribution bus *)

Section RedisPubSubFacts.
Import RedisPubSub.

Lemma ensure_connection_alive {A : Type} (func : M t A) self :
  _redis_client self = true ->
  network self = [] ->
  _ensure_connection func self = func self.
Proof.
  intros Hc Hn.
  unfold _ensure_connection, ping, command. monad_unfold.
  by rewrite Hc, Hn.
Qed.

(** On a live connection a payload [json.dumps] rejects makes
    [publish_tick] raise: the second [except] clause names an attribute
    the [json] module does not have. *)
Lemma publish_tick_unencodable symbol data self e :
  _redis_client self = true ->
  network self = [] ->
  json.dumps data = Raise e ->
  publish_tick symbol data self = (self, Raise (AttributeError "JSONEncodeError")).
Proof.
  intros Hc Hn Hd. unfold publish_tick.
  rewrite ensure_connection_alive by done.
  unfold client_method. monad_unfold.
  rewrite Hc, Hd. cbn [handle].
  unfold json.dumps in Hd. case_match; [discriminate |].
  by injection Hd as <-.
Qed.

(** On a live connection a payload that serializes is published once:
    the answer is true and the server has one more message. *)
Lemma publish_tick_delivered symbol data self :
  _redis_client self = true ->
  network self = [] ->
  json.dumps data = Return data ->
  publish_tick symbol data self =
    (record_publication (channel_of symbol) data self, Return true).
Proof.
  intros Hc Hn Hd. unfold publish_tick.
  rewrite ensure_connection_alive by done.
  unfold client_method, command. monad_unfold.
  by rewrite Hc, Hd, Hn.
Qed.

(** When the connection check passes and the publish command then fails,
    the answer is false, nothing is published and no further command is
    sent. *)
Lemma publish_tick_transport_error symbol data self r net :
  _redis_client self = true ->
  network self = Ok :: r :: net ->
  r <> Ok ->
  json.dumps data = Return data ->
  publish_tick symbol data self = (set_network net self, Return false).
Proof.
  intros Hc Hn Hr Hd. unfold publish_tick.
  unfold _ensure_connection, ping, client_method, command. monad_unfold.
  rewrite Hc, Hn. cbn [network set_network _redis_client]. rewrite Hc, Hd.
  destruct self as [mr c n p s]; cbn in *; subst.
  destruct r; [done | reflexivity | reflexivity].
Qed.

(** C3.  [publish_tick] raises instead of answering false: with the
    connection up, on a payload [json.dumps] cannot encode (the handler
    meant for it looks up [json.JSONEncodeError], which does not exist);
    and with the server gone, on any payload, once the reconnection of
    the connection check has used up its attempts. *)
Theorem publish_tick_raises :
  snd (publish_tick "AAPL" Examples.aapl_bytes Examples.connected_client)
    = Raise (AttributeError "JSONEncodeError")
  /\ json.dumps Examples.aapl_bytes = Raise TypeError
  /\ snd (publish_tick "AAPL" Examples.aapl_tick Examples.cut_off_client)
       = Raise ConnectionError.
Proof. repeat split; vm_compute; reflexivity. Qed.

(** The loop leaves by its timeout test only on a message, and only on
    one that came in strictly later than [timeout] after [start_time]. *)
Lemma listen_loop_timeout_late {D : Type} timeout start_time
    (items : list (listen_item D)) called now :
  listen_loop timeout start_time items = (called, TimeoutReached now) ->
  exists T type data,
    timeout = Some T
    /\ In (Message now type data) items
    /\ fgt (fsub now start_time) T = true.
Proof.
  revert called. induction items as [| item items IH]; intros called;
    cbn [listen_loop]; [discriminate |].
  destruct item as [now' type data |]; [| discriminate].
  destruct (timed_out timeout start_time now') eqn:Hout.
  - intros [= <- <-]. unfold timed_out in Hout.
    destruct timeout as [T |]; [| discriminate].
    apply andb_true_iff in Hout as [_ Hgt].
    exists T, type, data. repeat split; [by left | done].
  - destruct (listen_loop timeout start_time items) as [called' e] eqn:Hl.
    intros Heq.
    assert (e = TimeoutReached now) as ->.
    { destruct (negb _); [congruence |]. destruct data; congruence. }
    destruct (IH _ eq_refl) as (T & type' & data' & HT & Hin & Hgt).
    exists T, type', data'. repeat split; [done | by right | done].
Qed.

(** While no message arrives the subscription goes on, whatever the
    timeout. *)
Lemma subscribe_to_silence symbol timeout start_time self :
  _redis_client self = true ->
  network self = [] ->
  subscribe_to (D := pydict) symbol timeout start_time [] self =
    (self, Return ([], Listening)).
Proof.
  intros Hc Hn. unfold subscribe_to.
  rewrite ensure_connection_alive by done.
  unfold client_method, command. monad_unfold.
  by rewrite Hc, Hn.
Qed.

(** C2.  A subscription made with [timeout=5] on a channel that confirms
    the subscription and then stays silent has not ended: the call is
    still listening, and nothing in the loop can end it before another
    message arrives. *)
Theorem subscription_outlives_timeout :
  snd (subscribe_to "AAPL" (Some (float_of_Z 5)) (float_of_Z 1000)
         Examples.silent_channel Examples.connected_client)
    = Return ([], Listening).
Proof. vm_compute. reflexivity. Qed.
End RedisPubSubFacts.

(** ** The feed connector *)

Section PolygonWebSocketClientFacts.
Import PolygonWebSocketClient.

Lemma on_close_retries self :
  should_reconnect self = true ->
  (reconnect_attempts self < MAX_RECONNECT_ATTEMPTS)%nat ->
  on_close self =
    ({| reconnect_attempts := reconnect_attempts self + 1;
        should_reconnect := true;
        connected := true;
        ws := true |},
     [Sleep RECONNECT_DELAY; Connect]).
Proof.
  intros Hr Hlt. unfold on_close. cbn [should_reconnect reconnect_attempts].
  rewrite Hr. apply Nat.ltb_lt in Hlt. rewrite Hlt. reflexivity.
Qed.

Lemma on_close_gives_up self :
  (MAX_RECONNECT_ATTEMPTS <= reconnect_attempts self)%nat ->
  on_close self =
    ({| reconnect_attempts := reconnect_attempts self;
        should_reconnect := should_reconnect self;
        connected := false;
        ws := ws self |}, []).
Proof.
  intros Hge. unfold on_close. cbn [should_reconnect reconnect_attempts].
  apply Nat.ltb_ge in Hge. rewrite Hge, andb_false_r. reflexivity.
Qed.

Lemma connects_app actions actions' :
  connects (actions ++ actions') = (connects actions + connects actions')%nat.
Proof. unfold connects. by rewrite List.filter_app, length_app. Qed.

Lemma steps_app evs evs' self :
  steps self (evs ++ evs') =
    (fst (steps (fst (steps self evs)) evs'),
     snd (steps self evs) ++ snd (steps (fst (steps self evs)) evs')).
Proof.
  revert self. induction evs as [| ev evs IH]; intros self;
    cbn [app steps fst snd].
  - by destruct (steps self evs').
  - destruct (step self ev) as [self' actions]. rewrite IH.
    destruct (steps self' evs) as [self'' actions']. cbn [fst snd].
    by rewrite app_assoc.
Qed.

Lemma connects_retries k :
  connects (concat (repeat [Sleep RECONNECT_DELAY; Connect] k)) = k.
Proof.
  induction k as [| k IH]; [done |].
  cbn [repeat concat]. rewrite connects_app, IH. reflexivity.
Qed.

(** Without a running connection no handler of the socket runs: no
    connection is started and none comes to be under way; a signal still
    clears the flag and closes the app it finds in [self.ws]. *)
Lemma steps_disconnected evs : forall self,
  connected self = false ->
  connects (snd (steps self evs)) = 0%nat
  /\ connected (fst (steps self evs)) = false.
Proof.
  induction evs as [| ev evs IH]; intros self Hc; cbn [steps]; [done |].
  assert (Hstep : connects (snd (step self ev)) = 0%nat
                  /\ connected (fst (step self ev)) = false).
  { destruct ev; cbn [step]; unfold handle_signal; rewrite ?Hc;
      try done. by destruct (ws self). }
  destruct (step self ev) as [self' actions]. cbn [fst snd] in Hstep.
  destruct Hstep as [Hnone Hc']. specialize (IH self' Hc').
  destruct (steps self' evs) as [self'' actions']. cbn [fst snd] in *.
  rewrite connects_app. split; [lia | tauto].
Qed.

(** [k] closes in a row, while the counter stays within the cap: each is
    answered by one fixed wait and one new connection. *)
Lemma steps_closes k : forall self,
  should_reconnect self = true ->
  connected self = true ->
  (reconnect_attempts self + k <= MAX_RECONNECT_ATTEMPTS)%nat ->
  snd (steps self (repeat Closed k))
    = concat (repeat [Sleep RECONNECT_DELAY; Connect] k)
  /\ reconnect_attempts (fst (steps self (repeat Closed k)))
     = (reconnect_attempts self + k)%nat
  /\ should_reconnect (fst (steps self (repeat Closed k))) = true
  /\ connected (fst (steps self (repeat Closed k))) = true.
Proof.
  induction k as [| k IH]; intros self Hr Hc Hle.
  - cbn. by rewrite Nat.add_0_r.
  - cbn [repeat steps step]. rewrite Hc.
    rewrite on_close_retries by (done || lia).
    destruct (IH {| reconnect_attempts := reconnect_attempts self + 1;
                    should_reconnect := true; connected := true;
                    ws := true |})
      as (Ha & Hn & Hs & Hcn);
      [done | done | cbn [reconnect_attempts]; lia |].
    destruct (steps _ (repeat Closed k)) as [self' actions].
    cbn [fst snd reconnect_attempts concat] in *.
    subst actions. split; [done |]. split; [lia |]. done.
Qed.

(** Once the counter has reached the cap, no event other than a
    successful open leads to a connection attempt. *)
Lemma steps_exhausted evs : forall self,
  (MAX_RECONNECT_ATTEMPTS <= reconnect_attempts self)%nat ->
  existsb is_Opened evs = false ->
  connects (snd (steps self evs)) = 0%nat.
Proof.
  induction evs as [| ev evs IH]; intros self Hge Hno; cbn [steps]; [done |].
  cbn [existsb] in Hno. apply orb_false_iff in Hno as [Hev Hno].
  assert (Hstep : connects (snd (step self ev)) = 0%nat
                  /\ (MAX_RECONNECT_ATTEMPTS
                      <= reconnect_attempts (fst (step self ev)))%nat).
  { destruct ev; [discriminate | |]; cbn [step].
    - destruct (connected self); [| done].
      by rewrite on_close_gives_up.
    - unfold handle_signal. by destruct (ws self). }
  destruct (step self ev) as [self' actions]. cbn [fst snd] in Hstep.
  destruct Hstep as [Hnone Hge']. specialize (IH self' Hge' Hno).
  destruct (steps self' evs) as [self'' actions']. cbn [snd] in *.
  rewrite connects_app. lia.
Qed.

(** C8, as the code has it.  Take a client that reconnects, with a
    connection under way and the counter at zero (as [run] or [on_open]
    leave it).  Each of its first [MAX_RECONNECT_ATTEMPTS] closes in a row
    is answered by a wait of [RECONNECT_DELAY], the same for every
    attempt, and one new connection; after that many closes the last of
    these connections is still under way, and no event short of an open
    starts another.  It is the next close in a row, the one after
    [MAX_RECONNECT_ATTEMPTS], that starts nothing and leaves the client
    without a connection; from there on no event starts a connection or
    brings one about: the client stays closed. *)
Theorem reconnection_is_capped self k failures later :
  should_reconnect self = true ->
  connected self = true ->
  reconnect_attempts self = 0%nat ->
  (k <= MAX_RECONNECT_ATTEMPTS)%nat ->
  existsb is_Opened failures = false ->
  let exhausted := fst (steps self (repeat Closed MAX_RECONNECT_ATTEMPTS)) in
  let closed := fst (steps self (repeat Closed (S MAX_RECONNECT_ATTEMPTS))) in
  snd (steps self (repeat Closed k))
    = concat (repeat [Sleep RECONNECT_DELAY; Connect] k)
  /\ connected exhausted = true
  /\ connects (snd (steps exhausted failures)) = 0%nat
  /\ snd (steps self (repeat Closed (S MAX_RECONNECT_ATTEMPTS)))
     = concat (repeat [Sleep RECONNECT_DELAY; Connect] MAX_RECONNECT_ATTEMPTS)
  /\ connected closed = false
  /\ connects (snd (steps closed later)) = 0%nat
  /\ connected (fst (steps closed later)) = false.
Proof.
  intros Hr Hc H0 Hk Hno exhausted closed.
  destruct (steps_closes MAX_RECONNECT_ATTEMPTS self Hr Hc)
    as (Hacts & Hn & Hs & Hcn); [lia |].
  fold exhausted in Hn, Hs, Hcn. rewrite H0 in Hn. cbn [Nat.add] in Hn.
  assert (Hlast : steps exhausted [Closed] =
                  ({| reconnect_attempts := reconnect_attempts exhausted;
                      should_reconnect := should_reconnect exhausted;
                      connected := false;
                      ws := ws exhausted |}, [])).
  { cbn [steps step]. rewrite Hcn, on_close_gives_up by lia. reflexivity. }
  assert (Hsplit : steps self (repeat Closed (S MAX_RECONNECT_ATTEMPTS)) =
                   (fst (steps exhausted [Closed]),
                    snd (steps self (repeat Closed MAX_RECONNECT_ATTEMPTS))
                    ++ snd (steps exhausted [Closed]))).
  { replace (repeat Closed (S MAX_RECONNECT_ATTEMPTS))
      with (repeat Closed MAX_RECONNECT_ATTEMPTS ++ [Closed])
      by reflexivity.
    apply steps_app. }
  assert (Hclosed : connected closed = false).
  { subst closed. by rewrite Hsplit, Hlast. }
  split; [by apply steps_closes; [| | lia] |].
  split; [exact Hcn |].
  split; [apply steps_exhausted; [lia | done] |].
  split; [by rewrite Hsplit, Hlast, Hacts, app_nil_r |].
  split; [exact Hclosed |].
  by apply steps_disconnected.
Qed.

Lemma reconnection_is_capped_witness :
  let self := fst (run init) in
  let exhausted := fst (steps self (repeat Closed MAX_RECONNECT_ATTEMPTS)) in
  let closed := fst (steps self (repeat Closed (S MAX_RECONNECT_ATTEMPTS))) in
  snd (steps self (repeat Closed 3))
    = concat (repeat [Sleep RECONNECT_DELAY; Connect] 3)
  /\ connected exhausted = true
  /\ connects (snd (steps exhausted [Closed; Signalled; Closed])) = 0%nat
  /\ snd (steps self (repeat Closed (S MAX_RECONNECT_ATTEMPTS)))
     = concat (repeat [Sleep RECONNECT_DELAY; Connect] MAX_RECONNECT_ATTEMPTS)
  /\ connected closed = false
  /\ connects (snd (steps closed [Opened; Closed; Signalled; Opened])) = 0%nat
  /\ connected (fst (steps closed [Opened; Closed; Signalled; Opened])) = false.
Proof.
  apply (reconnection_is_capped (fst (run init)) 3
           [Closed; Signalled; Closed] [Opened; Closed; Signalled; Opened]);
    [reflexivity | reflexivity | reflexivity
    | unfold MAX_RECONNECT_ATTEMPTS; lia | reflexivity].
Defined.

(** C8, as the claim has it, fails.  From a client that has just been
    started, [MAX_RECONNECT_ATTEMPTS] closes in a row (the first
    connection and four reconnections failing) do not close the client:
    the fifth close too is answered by a wait and a new connection, which
    is under way afterwards; and when that connection opens and is closed
    later, the client reconnects once more. *)
Lemma five_failures_leave_a_connection_under_way :
  let after := steps (fst (run init)) (repeat Closed MAX_RECONNECT_ATTEMPTS) in
  snd after = concat (repeat [Sleep RECONNECT_DELAY; Connect] 5)
  /\ connected (fst after) = true
  /\ snd (steps (fst after) [Opened; Closed])
     = SendAuth :: map SendSubscribe TICKERS
       ++ [Sleep RECONNECT_DELAY; Connect].
Proof. repeat split; reflexivity. Qed.

(** With a function bound to [publish_tick], a trade tick is handed to
    it under the symbol the tick carries; an exception it raises is
    logged and goes no further. *)
Lemma process_tick_forwards {W : Type}
    (publish_tick : string -> pydict -> M W bool) tick symbol bus :
  dict_get "ev" tick = Some (PyStr "T") ->
  dict_get "sym" tick = Some (PyStr symbol) ->
  process_tick publish_tick tick bus
    = (fst (publish_tick symbol tick bus), Return tt).
Proof.
  intros Hev Hsym. unfold process_tick. rewrite Hev, Hsym.
  monad_unfold. cbn [getitem str_of].
  destruct (publish_tick symbol tick bus) as [bus' [b | e]]; [reflexivity |].
  cbn [handle fst]. destruct (is_KeyError e); reflexivity.
Qed.

(** C10.  [redis_pubsub] binds no module-level name [publish_tick]; the
    name is an attribute of the class [RedisPubSub] only.  The import on
    line 6 of [polygon_ws.py] therefore raises, the module never gets to
    define its handlers, and whatever frames the feed delivers and
    whatever the bus is, nothing reaches it. *)
Theorem forwarding_never_delivers {W : Type}
    (publish_tick : string -> pydict -> M W bool)
    (messages : list frame) (bus : W) :
  ("publish_tick" ∉ RedisPubSub.module_names)
  /\ ("publish_tick" ∈ RedisPubSub.class_attributes)
  /\ load_module = Raise (ImportError "publish_tick")
  /\ forward publish_tick messages bus
     = (bus, Raise (ImportError "publish_tick")).
Proof.
  split; [apply (bool_decide_unpack _); vm_compute; reflexivity |].
  split; [apply (bool_decide_unpack _); vm_compute; reflexivity |].
  split; reflexivity.
Qed.
End PolygonWebSocketClientFacts.

(** * Part III: further properties of the code *)

(** ** strategy.py *)

Section MomentumScannerMore.
Import MomentumScanner Vocabulary.

Lemma window_seconds (s : Z) :
  ((s / 3600) mod 24 =? 15)%Z
  && ((45 <=? (s / 60) mod 60)%Z && ((s / 60) mod 60 <=? 59)%Z) = true
  <-> (56700 <= s mod 86400 < 57600)%Z.
Proof.
  rewrite !andb_true_iff, Z.eqb_eq, !Z.leb_le.
  Z.to_euclidean_division_equations. lia.
Qed.

Lemma window_milliseconds (timestamp : Z) :
  (56700 <= (timestamp / 1000) mod 86400 < 57600)%Z
  <-> (56700000 <= timestamp mod 86400000 < 57600000)%Z.
Proof. Z.to_euclidean_division_equations. lia. Qed.

Lemma fromtimestamp_utc_in_range timestamp :
  (-62135596800000 <= timestamp < 253402300800000)%Z ->
  fromtimestamp_utc timestamp =
    Return {| hour := ((timestamp / 1000 / 3600) mod 24)%Z;
              minute := ((timestamp / 1000 / 60) mod 60)%Z |}.
Proof.
  intros Hr. unfold fromtimestamp_utc.
  assert (Hs : (-62135596800 <= timestamp / 1000 <= 253402300799)%Z)
    by (Z.to_euclidean_division_equations; lia).
  destruct (Z.ltb_spec (timestamp / 1000) (-62135596800)); [lia |].
  destruct (Z.ltb_spec 253402300799 (timestamp / 1000)); [lia |].
  reflexivity.
Qed.

Lemma _in_final_15_minutes_in_range timestamp :
  (-62135596800000 <= timestamp < 253402300800000)%Z ->
  _in_final_15_minutes timestamp =
    Return (bool_decide (56700000 <= timestamp mod 86400000 < 57600000)%Z).
Proof.
  intros Hr. unfold _in_final_15_minutes.
  rewrite fromtimestamp_utc_in_range by done. cbn [bind hour minute].
  f_equal. unfold TARGET_HOUR, TARGET_MINUTE_START, TARGET_MINUTE_END.
  pose proof (window_seconds (timestamp / 1000)) as Hs.
  pose proof (window_milliseconds timestamp) as Hm.
  destruct (_ && _) eqn:Hb.
  - symmetry. apply bool_decide_eq_true. apply Hm, Hs. reflexivity.
  - symmetry. apply bool_decide_eq_false. intros Hw.
    apply Hm, Hs in Hw. discriminate.
Qed.

(** X1.  For a timestamp a datetime can hold, [_in_final_15_minutes]
    answers, and it answers true exactly when the time of day lies in the
    900000 milliseconds from 15:45:00.000 UTC on, whatever the day. *)
Theorem in_final_15_minutes_window timestamp :
  (-62135596800000 <= timestamp < 253402300800000)%Z ->
  (exists b, _in_final_15_minutes timestamp = Return b)
  /\ (_in_final_15_minutes timestamp = Return true
      <-> (56700000 <= timestamp mod 86400000 < 57600000)%Z).
Proof.
  intros Hr. rewrite _in_final_15_minutes_in_range by done.
  split; [by eexists |]. split.
  - intros [= Hb]. by apply bool_decide_eq_true in Hb.
  - intros Hw. f_equal. by apply bool_decide_eq_true.
Qed.

Lemma in_final_15_minutes_window_witness :
  (exists b, _in_final_15_minutes TestCases.in_window = Return b)
  /\ (_in_final_15_minutes TestCases.in_window = Return true
      <-> (56700000 <= TestCases.in_window mod 86400000 < 57600000)%Z).
Proof.
  apply in_final_15_minutes_window. unfold TestCases.in_window. lia.
Defined.

(** X2.  A timestamp inside the window is outside it when moved one hour
    back (the case "Outside time window" of the tests), and inside it
    again when moved by whole days. *)
Theorem window_shifts timestamp days :
  _in_final_15_minutes timestamp = Return true ->
  (-62135596800000 <= timestamp - 3600000)%Z ->
  (-62135596800000 <= timestamp + days * 86400000 < 253402300800000)%Z ->
  _in_final_15_minutes (timestamp - 3600000) = Return false
  /\ _in_final_15_minutes (timestamp + days * 86400000) = Return true.
Proof.
  intros Hin Hlo Hday.
  assert (Hr : (-62135596800000 <= timestamp < 253402300800000)%Z).
  { unfold _in_final_15_minutes, fromtimestamp_utc in Hin.
    destruct (_ || _) eqn:Hb; [discriminate |].
    apply orb_false_iff in Hb as [H1 H2].
    apply Z.ltb_ge in H1, H2. Z.to_euclidean_division_equations; lia. }
  rewrite _in_final_15_minutes_in_range in Hin by done.
  injection Hin as Hin. apply bool_decide_eq_true in Hin.
  split.
  - rewrite _in_final_15_minutes_in_range by lia. f_equal.
    apply bool_decide_eq_false. Z.to_euclidean_division_equations; lia.
  - rewrite _in_final_15_minutes_in_range by lia. f_equal.
    apply bool_decide_eq_true.
    replace ((timestamp + days * 86400000) mod 86400000)%Z
      with (timestamp mod 86400000)%Z; [done |].
    by rewrite Z.mod_add.
Qed.

Lemma window_shifts_witness :
  _in_final_15_minutes (TestCases.in_window - 3600000) = Return false
  /\ _in_final_15_minutes (TestCases.in_window + 365 * 86400000) = Return true.
Proof.
  apply window_shifts;
    [reflexivity | unfold TestCases.in_window; lia
    | unfold TestCases.in_window; lia].
Defined.

(** X4.  A tick lacking ["sym"], ["p"] or ["t"] makes [evaluate_tick]
    raise [KeyError] for the first key missing in that order; nothing is
    stored and the reference price stays. *)
Theorem evaluate_tick_missing_key tick base_price self :
  tick_sym tick = None \/ tick_p tick = None \/ tick_t tick = None ->
  evaluate_tick tick base_price self =
    (self,
     Raise (KeyError (match tick_sym tick, tick_p tick with
                      | None, _ => "sym"
                      | Some _, None => "p"
                      | Some _, Some _ => "t"
                      end))).
Proof.
  intros Hmissing. unfold evaluate_tick. monad_unfold.
  destruct (tick_sym tick); [| reflexivity].
  destruct (tick_p tick); [| reflexivity].
  destruct (tick_t tick); [| reflexivity].
  destruct Hmissing as [? | [? | ?]]; discriminate.
Qed.

Lemma evaluate_tick_missing_key_witness :
  evaluate_tick (TestCases.price_only (float_of_Z 1130)) (float_of_Z 1100) init
  = (init, Raise (KeyError "sym")).
Proof.
  apply (evaluate_tick_missing_key (TestCases.price_only (float_of_Z 1130))).
  left. reflexivity.
Defined.

(** *** What the histories hold *)

Lemma elem_of_slice_last {A : Type} (n : nat) (l : list A) (x : A) :
  x ∈ slice_last n l -> x ∈ l.
Proof.
  unfold slice_last. destruct n; [done |]. apply subseteq_drop.
Qed.

Lemma slice_last_suffix {A : Type} (n : nat) (l : list A) :
  slice_last n l `suffix_of` l.
Proof. unfold slice_last. destruct n; [done |]. apply suffix_drop. Qed.

Lemma well_filed_init : well_filed init.
Proof.
  intros symbol tick. unfold history, init; cbn. rewrite lookup_empty.
  cbn. by intros ?%elem_of_nil.
Qed.

Lemma well_filed_recorded symbol tick self :
  tick_sym tick = Some symbol ->
  well_formed tick ->
  well_filed self ->
  well_filed (compact symbol (append_tick symbol tick self)).
Proof.
  intros Hs Hwf Hfiled other stored.
  destruct (decide (symbol = other)) as [<- | Hne].
  - rewrite history_recorded. cbn zeta. intros Hin.
    assert (Hin' : stored ∈ history self symbol ++ [tick]).
    { destruct (_ <? _)%nat; [by eapply elem_of_slice_last | done]. }
    apply elem_of_app in Hin' as [Hold | ->%list_elem_of_singleton];
      [by apply Hfiled | done].
  - rewrite history_recorded_ne by done. apply Hfiled.
Qed.

Lemma well_formed_dec tick : {well_formed tick} + {~ well_formed tick}.
Proof. unfold well_formed. exact (decide _). Defined.

Lemma well_filed_apply self o : well_filed self -> well_filed (apply self o).
Proof.
  intros Hfiled. destruct o as [tick | tick base_price]; cbn [apply].
  - intros symbol stored. rewrite update_spy_history. apply Hfiled.
  - destruct (well_formed_dec tick) as [Hwf | Hwf].
    + pose proof Hwf as ([symbol Hs] & [price Hp] & [timestamp Ht]).
      rewrite (evaluate_tick_state _ _ _ _ _ _ Hs Hp Ht).
      by apply well_filed_recorded.
    + by rewrite evaluate_tick_malformed.
Qed.

Lemma well_filed_run ops : well_filed (run ops).
Proof.
  unfold run. generalize well_filed_init. generalize init.
  induction ops as [| o ops IH]; intros self Hfiled; cbn [foldl]; [done |].
  apply IH. by apply well_filed_apply.
Qed.

(** X5.  In every state a fresh scanner can reach, each stored tick sits in
    the history of the very symbol it carries, spelled as the tick spells
    it, and has a price and a timestamp. *)
Theorem stored_ticks_well_filed ops symbol tick :
  tick ∈ history (run ops) symbol ->
  tick_sym tick = Some symbol /\ well_formed tick.
Proof. apply well_filed_run. Qed.

Lemma stored_ticks_well_filed_witness :
  tick_sym (Examples.nvda_at 1139) = Some "NVDA"
  /\ well_formed (Examples.nvda_at 1139).
Proof.
  apply (stored_ticks_well_filed Examples.ten_ticks "NVDA").
  vm_compute. do 9 apply list_elem_of_further. apply list_elem_of_here.
Defined.





Lemma run_snoc ops o : run (ops ++ [o]) = apply (run ops) o.
Proof. unfold run. by rewrite foldl_snoc. Qed.

Lemma evaluated_for_snoc symbol ops o :
  evaluated_for symbol (ops ++ [o]) =
    evaluated_for symbol ops ++
      match filed_under symbol o with Some tick => [tick] | None => [] end.
Proof.
  unfold evaluated_for. rewrite omap_app. f_equal.
Qed.

(** The history of [symbol] after one more operation. *)
Lemma history_apply self o symbol :
  history (apply self o) symbol =
    match filed_under symbol o with
    | Some tick =>
        let h := history self symbol ++ [tick] in
        if (HISTORY_WINDOW * 2 <? length h)%nat
        then slice_last HISTORY_WINDOW h else h
    | None => history self symbol
    end.
Proof.
  destruct o as [tick | tick base_price]; cbn [apply filed_under].
  - apply update_spy_history.
  - destruct (well_formed_dec tick) as [Hwf | Hwf].
    + pose proof Hwf as ([sym Hs] & [price Hp] & [timestamp Ht]).
      rewrite (evaluate_tick_state _ _ _ _ _ _ Hs Hp Ht).
      case_bool_decide as Hd.
      * destruct Hd as [Hsym _]. assert (sym = symbol) as -> by congruence.
        apply history_recorded.
      * rewrite history_recorded_ne; [done |].
        intros ->. by apply Hd.
    + rewrite evaluate_tick_malformed by done.
      rewrite bool_decide_eq_false_2; [done | by intros [_ ?]].
Qed.

(** X7.  In every state a fresh scanner can reach, the history of a symbol
    is a suffix of the ticks evaluated for that symbol: the most recent
    ones, oldest first, none skipped and none reordered; and it holds at
    least the last [HISTORY_WINDOW] of them once that many have come. *)
Theorem history_holds_latest_ticks ops symbol :
  history (run ops) symbol `suffix_of` evaluated_for symbol ops
  /\ (Nat.min HISTORY_WINDOW (length (evaluated_for symbol ops))
      <= length (history (run ops) symbol))%nat.
Proof.
  induction ops as [| o ops [IHs IHl]] using rev_ind.
  - split; [| cbn; lia]. unfold run, history, init; cbn.
    by rewrite lookup_empty.
  - rewrite run_snoc, evaluated_for_snoc, history_apply.
    destruct (filed_under symbol o) as [tick |].
    + cbn zeta. unfold HISTORY_WINDOW in *.
      pose proof (length_app (history (run ops) symbol) [tick]) as Hone.
      pose proof (length_app (evaluated_for symbol ops) [tick]) as Hev.
      cbn [length] in Hone, Hev.
      destruct (_ <? _)%nat eqn:Hlen.
      * apply Nat.ltb_lt in Hlen. split.
        -- etrans; [apply slice_last_suffix |]. by apply suffix_app.
        -- rewrite slice_last_length by lia. lia.
      * apply Nat.ltb_ge in Hlen. split; [by apply suffix_app | lia].
    + rewrite app_nil_r. done.
Qed.
(** X3.  [evaluate_tick] answers true for no tick, no base price and no
    state of the scanner: it answers false or raises.  When the momentum
    check runs, the tick under evaluation is already the newest entry of
    the history the check reads, and its price does not exceed itself: on
    the state [evaluate_tick] leaves, the check on the tick's own symbol
    and price does not pass (for a tick lacking a key that state is the
    one before). *)
Theorem momentum_check_never_passes tick base_price self :
  let after := fst (evaluate_tick tick base_price self) in
  (snd (evaluate_tick tick base_price self) = Return false
   \/ exists e, snd (evaluate_tick tick base_price self) = Raise e)
  /\ match tick_sym tick, tick_p tick, tick_t tick with
     | Some symbol, Some price, Some _ =>
         _is_momentum_up after symbol price = Return false
         \/ exists e, _is_momentum_up after symbol price = Raise e
     | _, _, _ => after = self
     end.
Proof.
  cbn zeta. split.
  - pose proof (evaluate_tick_never_signals tick base_price self) as Hno.
    destruct (snd (evaluate_tick tick base_price self)) as [[] | e];
      [done | by left | right; by exists e].
  - destruct (tick_sym tick) as [symbol |] eqn:Hs;
      [destruct (tick_p tick) as [price |] eqn:Hp;
       [destruct (tick_t tick) as [timestamp |] eqn:Ht |] |];
      try (apply evaluate_tick_malformed; unfold well_formed;
           rewrite ?Hs, ?Hp, ?Ht; intros (? & ? & ?);
           by repeat match goal with H : is_Some None |- _ =>
                       destruct H as [? H]; discriminate H end).
    rewrite (evaluate_tick_state _ _ _ _ _ _ Hs Hp Ht).
    destruct (history_recorded_snoc symbol tick self) as [older Hh].
    pose proof (_is_momentum_up_newest _ _ _ _ _ Hh Hp) as Hup.
    destruct (_is_momentum_up _ symbol price) as [[] | e];
      [done | by left | right; by exists e].
Qed.
End MomentumScannerMore.

(** ** main.py *)

Section TradingBotMore.
Import MomentumScanner TradingBot Vocabulary.

Lemma set_scanner_same bot : set_scanner (scanner bot) bot = bot.
Proof. by destruct bot. Qed.

Lemma dispatch_never_signals bot tick symbol sc :
  snd (dispatch bot tick symbol sc) <> Return true.
Proof.
  unfold dispatch. destruct (String.eqb symbol "SPY").
  - monad_unfold. destruct (update_spy tick sc) as [sc' [[] | e]]; discriminate.
  - destruct (base_prices bot !! symbol) as [base_price |]; [| discriminate].
    destruct (float_truthy base_price); [| discriminate].
    apply evaluate_tick_never_signals.
Qed.

(** X8.  Whatever tick the bot is handed and whatever state it is in,
    [handle_tick] logs no buy signal: it logs nothing, or the invalid
    tick, or the exception it caught. *)
Theorem handle_tick_never_signals tick bot :
  snd (handle_tick tick bot) = []
  \/ snd (handle_tick tick bot) = [InvalidTick tick]
  \/ exists symbol e, snd (handle_tick tick bot) = [ProcessingError symbol e].
Proof.
  unfold handle_tick.
  destruct (negb (validate_tick tick)); [right; by left |].
  destruct (tick_sym tick) as [sym |]; [| right; by left].
  destruct (tick_p tick) as [p |]; [| right; by left].
  pose proof (dispatch_never_signals bot tick (upper sym) (scanner bot)) as Hno.
  destruct (dispatch bot tick (upper sym) (scanner bot)) as [sc [[] | e]];
    cbn [snd] in *; [done | by left |].
  right; right. by exists (upper sym), e.
Qed.

(** X9.  A tick of the reference symbol, in whatever letter case it spells
    ["SPY"], sets the reference price to its price; it enters no history
    and nothing is logged. *)
Theorem handle_tick_reference tick bot sym price :
  tick_sym tick = Some sym ->
  tick_p tick = Some price ->
  upper sym = "SPY" ->
  handle_tick tick bot =
    (set_scanner {| tick_history := tick_history (scanner bot);
                    spy_price := Some price |} bot, []).
Proof.
  intros Hs Hp Hspy. unfold handle_tick, validate_tick, dispatch.
  rewrite Hs, Hp, !bool_decide_eq_true_2 by eauto. cbn [andb negb].
  rewrite Hspy. cbn [String.eqb]. unfold update_spy. monad_unfold.
  rewrite Hp. reflexivity.
Qed.

Lemma handle_tick_reference_witness :
  let tick := {| tick_ev := Some "T"; tick_sym := Some "spy";
                 tick_p := Some (float_of_Z 531); tick_t := None;
                 tick_s := None |} in
  handle_tick tick init =
    (set_scanner {| tick_history := tick_history (scanner init);
                    spy_price := Some (float_of_Z 531) |} init, []).
Proof.
  apply (handle_tick_reference _ init "spy" (float_of_Z 531));
    reflexivity.
Defined.

Lemma evaluate_tick_nonzero_base tick base_price self :
  float_truthy base_price = true ->
  snd (evaluate_tick tick base_price self) <> Raise ZeroDivisionError.
Proof.
  intros Htruthy. apply negb_true_iff in Htruthy.
  destruct (tick_sym tick) as [symbol |] eqn:Hs;
    [destruct (tick_p tick) as [price |] eqn:Hp;
     [destruct (tick_t tick) as [timestamp |] eqn:Ht |] |];
    try (unfold evaluate_tick, bindM, lift; rewrite ?Hs, ?Hp, ?Ht;
         cbn; discriminate).
  rewrite (evaluate_tick_answer _ _ _ _ _ _ Hs Hp Ht). cbn zeta.
  destruct (spy_price self); [| discriminate].
  destruct (_in_final_15_minutes timestamp) as [[] | e] eqn:Hw;
    cbn [bind negb]; [| discriminate |].
  - destruct (relative_strength_nonzero
                (compact symbol (append_tick symbol tick self))
                price base_price Htruthy) as [r ->].
    cbn [bind]. destruct (flt _ _); [discriminate |].
    destruct (_ <? _)%Z; [discriminate |].
    destruct (_is_momentum_up _ _ _) as [[] | e] eqn:Hup; cbn [bind negb];
      try discriminate.
    apply _is_momentum_up_raises in Hup as ->. discriminate.
  - apply _in_final_15_minutes_raises in Hw as ->. discriminate.
Qed.

(** X10.  Whatever the table of base prices holds (a zero included) and
    whatever the tick, [handle_tick] never runs into the division by zero
    of the relative strength: a base price that is zero counts as absent
    and the tick is not evaluated, so no such error is logged. *)
Theorem handle_tick_never_divides_by_zero tick bot :
  existsb logs_zero_division (snd (handle_tick tick bot)) = false.
Proof.
  unfold handle_tick.
  destruct (negb (validate_tick tick)); [done |].
  destruct (tick_sym tick) as [sym |]; [| done].
  destruct (tick_p tick) as [p |] eqn:Hp; [| done].
  assert (Hno : snd (dispatch bot tick (upper sym) (scanner bot))
                <> Raise ZeroDivisionError).
  { unfold dispatch. destruct (String.eqb (upper sym) "SPY").
    - unfold update_spy. monad_unfold. rewrite Hp. discriminate.
    - destruct (base_prices bot !! upper sym) as [base_price |];
        [| discriminate].
      destruct (float_truthy base_price) eqn:Htruthy; [| discriminate].
      by apply evaluate_tick_nonzero_base. }
  destruct (dispatch bot tick (upper sym) (scanner bot)) as [sc [[] | e]];
    cbn [snd] in *; try done.
  destruct e; try done.
Qed.

(** X11.  [validate_tick] does not ask for ["t"]: a tick of a tracked
    symbol that lacks it gets as far as [evaluate_tick], whose [KeyError]
    is caught and logged; the bot is left as it was. *)
Theorem handle_tick_missing_timestamp tick bot sym price base_price :
  tick_sym tick = Some sym ->
  tick_p tick = Some price ->
  tick_t tick = None ->
  upper sym <> "SPY" ->
  base_prices bot !! upper sym = Some base_price ->
  float_truthy base_price = true ->
  validate_tick tick = true
  /\ handle_tick tick bot = (bot, [ProcessingError (upper sym) (KeyError "t")]).
Proof.
  intros Hs Hp Ht Hspy Hbase Htruthy.
  assert (Hv : validate_tick tick = true).
  { unfold validate_tick. rewrite Hs, Hp, !bool_decide_eq_true_2 by eauto.
    reflexivity. }
  split; [exact Hv |].
  unfold handle_tick, dispatch. rewrite Hv, Hs, Hp. cbn [negb].
  apply String.eqb_neq in Hspy. rewrite Hspy, Hbase, Htruthy.
  unfold evaluate_tick. monad_unfold. rewrite Hs, Hp, Ht.
  cbn [getitem]. by rewrite set_scanner_same.
Qed.

Lemma handle_tick_missing_timestamp_witness :
  let tick := {| tick_ev := Some "T"; tick_sym := Some "nvda";
                 tick_p := Some (float_of_Z 1140); tick_t := None;
                 tick_s := Some 1200%Z |} in
  validate_tick tick = true
  /\ handle_tick tick init = (init, [ProcessingError "NVDA" (KeyError "t")]).
Proof.
  apply (handle_tick_missing_timestamp _ init "nvda" (float_of_Z 1140)
           (float_of_Z 1100));
    try reflexivity.
  vm_compute. discriminate.
Defined.

(** X12.  A tick whose symbol is made of ASCII characters and, once
    upper-cased, is neither ["SPY"] nor a key of the table with a base
    price other than zero is dropped: the bot is left as it was and
    nothing is logged. *)
Theorem handle_tick_untracked tick bot sym price :
  tick_sym tick = Some sym ->
  tick_p tick = Some price ->
  is_ascii sym = true ->
  upper sym <> "SPY" ->
  match base_prices bot !! upper sym with
  | Some base_price => float_truthy base_price = false
  | None => True
  end ->
  handle_tick tick bot = (bot, []).
Proof.
  intros Hs Hp _ Hspy Hbase. unfold handle_tick, validate_tick, dispatch.
  rewrite Hs, Hp, !bool_decide_eq_true_2 by eauto. cbn [andb negb].
  apply String.eqb_neq in Hspy. rewrite Hspy.
  destruct (base_prices bot !! upper sym) as [base_price |].
  - rewrite Hbase. monad_unfold. by rewrite set_scanner_same.
  - monad_unfold. by rewrite set_scanner_same.
Qed.

Lemma handle_tick_untracked_witness :
  let tick := {| tick_ev := Some "T"; tick_sym := Some "GOOG";
                 tick_p := Some (float_of_Z 140);
                 tick_t := Some TestCases.in_window; tick_s := Some 1200%Z |} in
  handle_tick tick init = (init, []).
Proof.
  apply (handle_tick_untracked _ init "GOOG" (float_of_Z 140));
    [reflexivity | reflexivity | reflexivity | vm_compute; discriminate
    | vm_compute; exact I].
Defined.

(** One tick moves the scanner by at most one operation of the engine and
    leaves the table of base prices alone. *)
Lemma handle_tick_scanner tick bot :
  base_prices (fst (handle_tick tick bot)) = base_prices bot
  /\ exists ops,
       scanner (fst (handle_tick tick bot)) = foldl apply (scanner bot) ops.
Proof.
  unfold handle_tick.
  destruct (negb (validate_tick tick)); [split; [done | by exists []] |].
  destruct (tick_sym tick) as [sym |]; [| split; [done | by exists []]].
  destruct (tick_p tick) as [p |]; [| split; [done | by exists []]].
  assert (Hd : exists ops, fst (dispatch bot tick (upper sym) (scanner bot))
                           = foldl apply (scanner bot) ops).
  { unfold dispatch. destruct (String.eqb (upper sym) "SPY").
    - exists [UpdateSpy tick]. cbn [foldl apply]. monad_unfold.
      by destruct (update_spy tick (scanner bot)) as [sc [[] | e]].
    - destruct (base_prices bot !! upper sym) as [base_price |];
        [| by exists []].
      destruct (float_truthy base_price); [| by exists []].
      by exists [EvaluateTick tick base_price]. }
  destruct Hd as [ops Hd].
  destruct (dispatch bot tick (upper sym) (scanner bot)) as [sc [[] | e]];
    cbn [fst] in *; subst; (split; [done | by exists ops]).
Qed.

Lemma handle_ticks_scanner ticks : forall bot,
  base_prices (handle_ticks ticks bot) = base_prices bot
  /\ exists ops,
       scanner (handle_ticks ticks bot) = foldl apply (scanner bot) ops.
Proof.
  induction ticks as [| tick ticks IH]; intros bot; cbn [handle_ticks foldl].
  - split; [done | by exists []].
  - destruct (handle_tick_scanner tick bot) as [Hb [ops Hops]].
    destruct (IH (fst (handle_tick tick bot))) as [Hb' [ops' Hops']].
    unfold handle_ticks in *. split; [congruence |].
    exists (ops ++ ops'). by rewrite foldl_app, <- Hops.
Qed.

(** X13.  However many ticks a fresh bot has handled, and whatever they
    are, its scanner is in a state the engine's own operations reach, so
    no history is longer than twice the window; and the table of base
    prices is the one it started with. *)
Theorem bot_histories_bounded ticks symbol :
  (exists ops, scanner (handle_ticks ticks init) = run ops)
  /\ (length (history (scanner (handle_ticks ticks init)) symbol)
      <= 2 * HISTORY_WINDOW)%nat
  /\ base_prices (handle_ticks ticks init) = base_prices init.
Proof.
  destruct (handle_ticks_scanner ticks init) as [Hb [ops Hops]].
  split; [by exists ops |]. split; [| exact Hb].
  rewrite Hops. apply (bounded_run ops).
Qed.
End TradingBotMore.

(** ** redis_pubsub.py *)

Section RedisPubSubMore.
Import RedisPubSub Vocabulary.

Lemma backoff_from attempt k :
  map (fun i => (2 ^ Z.of_nat i)%Z) (seq attempt (S k)) =
    (2 ^ Z.of_nat attempt)%Z
    :: map (fun i => (2 ^ Z.of_nat i)%Z) (seq (S attempt) k).
Proof. reflexivity. Qed.

Lemma connect_loop_step attempt remaining :
  _connect_loop attempt (S remaining) =
    try_except
      (_ <~ modify set_client ;; command)
      [(Return is_ConnectionError,
        if (remaining =? 0)%nat then lift (Raise ConnectionError)
        else _ <~ sleep (2 ^ Z.of_nat attempt) ;;
             _connect_loop (S attempt) remaining)].
Proof. reflexivity. Qed.

(** The loop of [_connect] when the server refuses [k] attempts and then
    answers, [k] being fewer than the attempts left. *)
Lemma connect_loop_succeeds k : forall attempt remaining self net,
  (k < remaining)%nat ->
  network self = repeat Refused k ++ Ok :: net ->
  _connect_loop attempt remaining self =
    (reconnected net
       (map (fun i => (2 ^ Z.of_nat i)%Z) (seq attempt k)) self,
     Return tt).
Proof.
  induction k as [| k IH]; intros attempt remaining self net Hlt Hnet;
    (destruct remaining as [| remaining]; [lia |]);
    rewrite connect_loop_step; cbn [repeat app] in Hnet;
    unfold command, sleep; monad_unfold;
    cbn [network set_client]; rewrite Hnet.
  - unfold reconnected, set_network, set_client; cbn. by rewrite app_nil_r.
  - cbn [handle is_ConnectionError].
    destruct (Nat.eqb_spec remaining 0) as [-> | Hne]; [lia |].
    unfold set_network, set_client;
      cbn [max_retries _redis_client network published sleeps].
    rewrite (IH (S attempt) remaining _ net) by (lia || done).
    rewrite backoff_from. unfold reconnected.
    cbn [max_retries _redis_client network published sleeps].
    by rewrite <- app_assoc.
Qed.

(** The loop when the server refuses every attempt that is left. *)
Lemma connect_loop_exhausted n : forall attempt self net,
  network self = repeat Refused (S n) ++ net ->
  _connect_loop attempt (S n) self =
    (reconnected net
       (map (fun i => (2 ^ Z.of_nat i)%Z) (seq attempt n)) self,
     Raise ConnectionError).
Proof.
  induction n as [| n IH]; intros attempt self net Hnet;
    rewrite connect_loop_step; cbn [repeat app] in Hnet;
    unfold command, sleep; monad_unfold;
    cbn [network set_client]; rewrite Hnet; cbn [handle is_ConnectionError Nat.eqb].
  - unfold reconnected, set_network, set_client; cbn. by rewrite app_nil_r.
  - unfold set_network, set_client;
      cbn [max_retries _redis_client network published sleeps].
    rewrite (IH (S attempt) _ net) by done.
    rewrite backoff_from. unfold reconnected.
    cbn [max_retries _redis_client network published sleeps].
    by rewrite <- app_assoc.
Qed.

(** The loop when an attempt times out after [k] refusals. *)
Lemma connect_loop_timed_out k : forall attempt remaining self net,
  (k < remaining)%nat ->
  network self = repeat Refused k ++ TimedOut :: net ->
  _connect_loop attempt remaining self =
    (reconnected net
       (map (fun i => (2 ^ Z.of_nat i)%Z) (seq attempt k)) self,
     Raise TimeoutError).
Proof.
  induction k as [| k IH]; intros attempt remaining self net Hlt Hnet;
    (destruct remaining as [| remaining]; [lia |]);
    rewrite connect_loop_step; cbn [repeat app] in Hnet;
    unfold command, sleep; monad_unfold;
    cbn [network set_client]; rewrite Hnet.
  - cbn [handle is_ConnectionError].
    unfold reconnected, set_network, set_client; cbn. by rewrite app_nil_r.
  - cbn [handle is_ConnectionError].
    destruct (Nat.eqb_spec remaining 0) as [-> | Hne]; [lia |].
    unfold set_network, set_client;
      cbn [max_retries _redis_client network published sleeps].
    rewrite (IH (S attempt) remaining _ net) by (lia || done).
    rewrite backoff_from. unfold reconnected.
    cbn [max_retries _redis_client network published sleeps].
    by rewrite <- app_assoc.
Qed.

(** X15.  When the server refuses the first [k] attempts of [_connect],
    fewer than [max_retries], and answers the next, [_connect] returns with
    the client connected, having waited 1, 2, 4, ... seconds after the
    refusals, [k] waits in all, and having sent [k + 1] pings. *)
Theorem connect_backs_off self k net :
  (k < max_retries self)%nat ->
  network self = repeat Refused k ++ Ok :: net ->
  _connect self = (reconnected net (backoff k) self, Return tt).
Proof.
  intros Hlt Hnet. unfold _connect. monad_unfold.
  by apply connect_loop_succeeds.
Qed.

Lemma connect_backs_off_witness :
  _connect (fresh [Refused; Refused; Ok; Refused])
  = (reconnected [Refused] [1; 2]%Z (fresh [Refused; Refused; Ok; Refused]),
     Return tt).
Proof.
  apply (connect_backs_off (fresh [Refused; Refused; Ok; Refused]) 2 [Refused]);
    [cbn; lia | reflexivity].
Defined.

(** X16.  When the server refuses [max_retries] attempts in a row,
    [_connect] raises [ConnectionError] after exactly that many pings; it
    has waited between the attempts but not after the last one. *)
Theorem connect_gives_up self n net :
  max_retries self = S n ->
  network self = repeat Refused (S n) ++ net ->
  _connect self = (reconnected net (backoff n) self, Raise ConnectionError).
Proof.
  intros Hmax Hnet. unfold _connect. monad_unfold. rewrite Hmax.
  by apply connect_loop_exhausted.
Qed.

Lemma connect_gives_up_witness :
  _connect (fresh [Refused; Refused; Refused; Ok])
  = (reconnected [Ok] [1; 2]%Z (fresh [Refused; Refused; Refused; Ok]),
     Raise ConnectionError).
Proof.
  apply (connect_gives_up (fresh [Refused; Refused; Refused; Ok]) 2 [Ok]);
    reflexivity.
Defined.

(** X17.  Only refusals are retried: a ping that times out ends [_connect]
    at once with [TimeoutError], attempts being left or not. *)
Theorem connect_timeout_not_retried self k net :
  (k < max_retries self)%nat ->
  network self = repeat Refused k ++ TimedOut :: net ->
  _connect self = (reconnected net (backoff k) self, Raise TimeoutError).
Proof.
  intros Hlt Hnet. unfold _connect. monad_unfold.
  by apply connect_loop_timed_out.
Qed.

Lemma connect_timeout_not_retried_witness :
  _connect (fresh [TimedOut; Ok; Ok])
  = (reconnected [Ok; Ok] [] (fresh [TimedOut; Ok; Ok]), Raise TimeoutError).
Proof.
  apply (connect_timeout_not_retried (fresh [TimedOut; Ok; Ok]) 0 [Ok; Ok]);
    [cbn; lia | reflexivity].
Defined.

(** *** The channel of a symbol *)






(** X20.  A connection found dead by the check is re-established behind
    the caller's back: when the ping of the check and [k] attempts of
    [_connect] are refused, [k] fewer than [max_retries], and the server
    answers from then on, [publish_tick] returns true with the payload
    published once, after the waits of the backoff. *)
Theorem publish_tick_reconnects symbol data self k net :
  _redis_client self = true ->
  (k < max_retries self)%nat ->
  network self = Refused :: repeat Refused k ++ Ok :: Ok :: net ->
  json.dumps data = Return data ->
  publish_tick symbol data self =
    (record_publication (channel_of symbol) data
       (reconnected net (backoff k) self),
     Return true).
Proof.
  intros Hc Hlt Hnet Hd.
  pose proof (connect_loop_succeeds k 0 (max_retries self)
                (set_network (repeat Refused k ++ Ok :: Ok :: net) self)
                (Ok :: net) Hlt eq_refl) as Hloop.
  unfold publish_tick, _ensure_connection, ping, _connect, client_method.
  unfold command at 1. monad_unfold.
  rewrite Hc, Hnet. cbn [handle is_ConnectionError orb].
  cbn [max_retries set_network] in *. rewrite Hloop.
  unfold reconnected at 1. cbn [_redis_client]. rewrite Hd.
  unfold command. cbn [network reconnected].
  unfold record_publication, reconnected, set_network; cbn. reflexivity.
Qed.

Lemma publish_tick_reconnects_witness :
  let self := set_client (fresh [Refused; Refused; Ok; Ok; Refused]) in
  publish_tick "AAPL" Examples.aapl_tick self =
    (record_publication (channel_of "AAPL") Examples.aapl_tick
       (reconnected [Refused] (backoff 1) self),
     Return true).
Proof.
  apply (publish_tick_reconnects "AAPL" Examples.aapl_tick
           (set_client (fresh [Refused; Refused; Ok; Ok; Refused]))
           1 [Refused]);
    [reflexivity | cbn; lia | reflexivity | reflexivity].
Defined.

(** *** The subscription loop *)

Lemma listen_loop_no_timeout {D : Type} timeout start_time
    (items : list (listen_item D)) :
  (forall now, timed_out timeout start_time now = false) ->
  existsb is_Broken items = false ->
  listen_loop timeout start_time items = (omap payload items, Listening).
Proof.
  intros Hnever. induction items as [| item items IH]; [done |].
  destruct item as [now type data |]; cbn [existsb is_Broken orb];
    [| discriminate].
  intros Hno. cbn [listen_loop]. rewrite Hnever, (IH Hno). cbn.
  destruct (String.eqb type "message"), data; reflexivity.
Qed.

(** X21.  With no timeout, [None] or zero (which the test [if timeout]
    takes for none), the loop never ends on its own: as long as [listen()]
    raises no error the call stays listening, and the callback has been
    called, in the order of arrival, with the data of exactly the items of
    type ["message"] that [json.loads] could decode; confirmations and
    undecodable messages are passed over without ending the loop. *)
Theorem subscription_without_timeout {D : Type} timeout start_time
    (items : list (listen_item D)) :
  match timeout with
  | Some T => float_truthy T = false
  | None => True
  end ->
  existsb is_Broken items = false ->
  listen_loop timeout start_time items = (omap payload items, Listening).
Proof.
  intros Hfalsy Hno. apply listen_loop_no_timeout; [| done].
  intros now. unfold timed_out. destruct timeout as [T |]; [| done].
  by rewrite Hfalsy.
Qed.

Lemma subscription_without_timeout_witness :
  let items :=
    [Message (float_of_Z 1000) "subscribe" (Raise TypeError);
     Message (float_of_Z 1004) "message" (Return Examples.aapl_tick);
     Message (float_of_Z 1009) "message" (Raise JSONDecodeError);
     Message (float_of_Z 5000) "message" (Return Examples.aapl_bytes)] in
  listen_loop (Some (float_of_Z 0)) (float_of_Z 1000) items
  = ([Examples.aapl_tick; Examples.aapl_bytes], Listening).
Proof.
  intros items.
  exact (subscription_without_timeout (Some (float_of_Z 0)) (float_of_Z 1000)
           items eq_refl eq_refl).
Defined.

(** X22.  When the loop does end by its timeout, it is on a message: the
    first one whose clock reading lies more than the timeout after
    [start_time], no item before it being late or broken.  That message
    and whatever follows it are not delivered; of the items before it the
    callback has got the data, in order.  However long the channel was
    silent before that message, the test did not run. *)
Theorem timeout_fires_on_a_message {D : Type} timeout start_time
    (items : list (listen_item D)) called now :
  listen_loop timeout start_time items = (called, TimeoutReached now) ->
  exists T before type data after,
    timeout = Some T
    /\ items = before ++ Message now type data :: after
    /\ fgt (fsub now start_time) T = true
    /\ existsb (late timeout start_time) before = false
    /\ existsb is_Broken before = false
    /\ called = omap payload before.
Proof.
  revert called. induction items as [| item items IH]; intros called;
    cbn [listen_loop]; [discriminate |].
  destruct item as [now' type data |]; [| discriminate].
  destruct (timed_out timeout start_time now') eqn:Hout.
  - intros [= <- <-]. unfold timed_out in Hout.
    destruct timeout as [T |]; [| discriminate].
    apply andb_true_iff in Hout as [_ Hgt].
    by exists T, [], type, data, items.
  - destruct (listen_loop timeout start_time items) as [called' e] eqn:Hl.
    intros Heq.
    assert (e = TimeoutReached now) as ->
      by (destruct (negb _); [| destruct data]; congruence).
    destruct (IH _ eq_refl)
      as (T & before & type' & data' & after & HT & Hitems & Hgt & Hearly
          & Hno & Hc).
    exists T, (Message now' type data :: before), type', data', after.
    split; [done |]. split; [by rewrite Hitems |].
    split; [done |].
    split; [cbn [existsb late]; by rewrite Hout, Hearly |].
    split; [done |].
    change (omap payload (Message now' type data :: before))
      with (match payload (Message now' type data) with
            | Some d => d :: omap payload before
            | None => omap payload before
            end).
    rewrite <- Hc. cbn [payload].
    destruct (String.eqb type "message"); cbn [negb] in Heq;
      destruct data; by injection Heq as <-.
Qed.

Lemma timeout_fires_on_a_message_witness :
  let items :=
    Examples.silent_channel
      ++ [Message (float_of_Z 1004) "message" (Return Examples.aapl_tick);
          Message (float_of_Z 1017) "message" (Return Examples.aapl_tick);
          Message (float_of_Z 1018) "message" (Return Examples.aapl_tick)] in
  exists T before type data after,
    Some (float_of_Z 5) = Some T
    /\ items = before ++ Message (float_of_Z 1017) type data :: after
    /\ fgt (fsub (float_of_Z 1017) (float_of_Z 1000)) T = true
    /\ existsb (late (Some (float_of_Z 5)) (float_of_Z 1000)) before = false
    /\ existsb is_Broken before = false
    /\ [Examples.aapl_tick] = omap payload before.
Proof.
  intros items.
  apply (timeout_fires_on_a_message (Some (float_of_Z 5)) (float_of_Z 1000)
           items [Examples.aapl_tick] (float_of_Z 1017)).
  vm_compute. reflexivity.
Defined.
End RedisPubSubMore.

(** ** main.py: [run] *)

Section TradingBotRunFacts.
Import RedisPubSub Vocabulary TradingBot TradingBotRun.

(** X14.  [run] subscribes to one symbol at a time.  On a live connection,
    as long as the subscription to ["SPY"], the first key of the table,
    meets no error, [run] stays in it: the bot has handled the ticks that
    came in on that subscription, in order, and no other symbol has been
    subscribed to, whatever their channels carry. *)
Theorem run_stays_in_first_subscription feed clock bot bus :
  _redis_client bus = true ->
  network bus = [] ->
  existsb is_Broken (feed "SPY") = false ->
  run feed clock bot bus =
    (bus, handle_ticks (omap payload (feed "SPY")) bot, ListeningTo "SPY").
Proof.
  intros Hc Hn Hno. unfold run, symbols. cbn [subscribe_each].
  unfold subscribe_to. rewrite ensure_connection_alive by done.
  unfold client_method, command. monad_unfold. rewrite Hc, Hn.
  by rewrite listen_loop_no_timeout.
Qed.

Lemma run_stays_in_first_subscription_witness :
  let feed := fun symbol : string =>
    if String.eqb symbol "SPY"
    then [Message (float_of_Z 1000) "subscribe" (Raise TypeError)]
    else [Message (float_of_Z 1001) "message" (Return Examples.nvda_upper)] in
  run feed (fun _ => float_of_Z 1000) init Examples.connected_client
  = (Examples.connected_client,
     handle_ticks (omap payload (feed "SPY")) init, ListeningTo "SPY").
Proof.
  apply (run_stays_in_first_subscription
           (fun symbol : string =>
              if String.eqb symbol "SPY"
              then [Message (float_of_Z 1000) "subscribe" (Raise TypeError)]
              else [Message (float_of_Z 1001) "message"
                      (Return Examples.nvda_upper)]));
    reflexivity.
Defined.
End TradingBotRunFacts.

(** ** polygon_ws.py *)

Section PolygonWebSocketClientMore.
Import PolygonWebSocketClient.

(** X23.  A tick whose ["ev"] is absent or anything but the string ["T"]
    is dropped: [publish_tick] is not called and the bus is as before. *)
Theorem process_tick_drops_other_events {W : Type}
    (publish_tick : string -> pydict -> M W bool) tick bus :
  dict_get "ev" tick <> Some (PyStr "T") ->
  process_tick publish_tick tick bus = (bus, Return tt).
Proof.
  intros Hev. unfold process_tick.
  destruct (dict_get "ev" tick) as [[| b | z | f | s | b] |];
    try reflexivity.
  destruct s as [| [[] [] [] [] [] [] [] []] [| c s]]; try reflexivity.
  congruence.
Qed.

Lemma process_tick_drops_other_events_witness :
  process_tick RedisPubSub.publish_tick
    [("ev", PyStr "Q"); ("sym", PyStr "AAPL"); ("bp", PyInt 182)]
    Examples.connected_client
  = (Examples.connected_client, Return tt).
Proof.
  apply process_tick_drops_other_events. cbn. discriminate.
Defined.

Lemma handlers_swallow {W : Type} (body : M W unit) bus :
  snd (try_except body
         [(Return is_KeyError, ret tt); (Return is_Exception, ret tt)] bus)
  = Return tt.
Proof.
  monad_unfold. destruct (body bus) as [bus' [[] | e]]; [done |].
  cbn [handle]. by destruct (is_KeyError e).
Qed.

Lemma process_tick_returns {W : Type}
    (publish_tick : string -> pydict -> M W bool) tick bus :
  snd (process_tick publish_tick tick bus) = Return tt.
Proof.
  unfold process_tick.
  destruct (dict_get "ev" tick) as [[| b | z | f | s | b] |];
    try reflexivity.
  destruct s as [| [[] [] [] [] [] [] [] []] [| c s]]; try reflexivity.
  apply handlers_swallow.
Qed.

(** X24.  Whatever [publish_tick] does (return false, raise) and whatever
    the frames hold (undecodable text, ticks without a symbol, ticks of
    other kinds), the message handler raises nothing: every frame of the
    feed gets handled. *)
Theorem on_messages_never_raises {W : Type}
    (publish_tick : string -> pydict -> M W bool) messages bus :
  snd (on_messages publish_tick messages bus) = Return tt.
Proof.
  revert bus. induction messages as [| m messages IH]; intros bus; [done |].
  cbn [on_messages]. monad_unfold.
  assert (Hm : snd (on_message publish_tick m bus) = Return tt).
  { destruct m as [| tick | ticks]; cbn [on_message]; [done | |].
    - apply process_tick_returns.
    - revert bus. induction ticks as [| tick ticks IHt]; intros bus; [done |].
      cbn [process_ticks]. monad_unfold.
      pose proof (process_tick_returns publish_tick tick bus) as Ht.
      destruct (process_tick publish_tick tick bus) as [bus' r].
      cbn [snd] in Ht. subst r. apply IHt. }
  destruct (on_message publish_tick m bus) as [bus' r].
  cbn [snd] in Hm. subst r. apply IH.
Qed.

(** *** Reconnection *)

(** X25.  A successful open gives the client its full allowance of
    retries back: after [k] closes in a row, an open and [j] more closes,
    [k] and [j] within the cap, it has started [k + j] connections and its
    counter stands at [j]. *)
Theorem open_resets_the_allowance self k j :
  should_reconnect self = true ->
  connected self = true ->
  reconnect_attempts self = 0%nat ->
  (k <= MAX_RECONNECT_ATTEMPTS)%nat ->
  (j <= MAX_RECONNECT_ATTEMPTS)%nat ->
  let outcome := steps self (repeat Closed k ++ Opened :: repeat Closed j) in
  connects (snd outcome) = (k + j)%nat
  /\ reconnect_attempts (fst outcome) = j
  /\ connected (fst outcome) = true.
Proof.
  intros Hr Hc H0 Hk Hj. cbn zeta. rewrite steps_app.
  destruct (steps_closes k self Hr Hc) as (Ha & Hn & Hs & Hcn); [lia |].
  destruct (steps self (repeat Closed k)) as [self' actions].
  cbn [fst snd] in *. subst actions.
  cbn [steps step]. rewrite Hcn. unfold on_open.
  destruct (steps_closes j
              {| reconnect_attempts := 0;
                 should_reconnect := should_reconnect self';
                 connected := connected self';
                 ws := ws self' |}) as (Ha' & Hn' & Hs' & Hcn');
    [done | done | cbn [reconnect_attempts]; lia |].
  destruct (steps _ (repeat Closed j)) as [self'' actions'].
  cbn [fst snd reconnect_attempts] in *. subst actions'.
  rewrite !connects_app, !connects_retries.
  change (connects (SendAuth :: map SendSubscribe TICKERS)) with 0%nat.
  split; [lia |]. split; [lia | done].
Qed.

Lemma open_resets_the_allowance_witness :
  let outcome := steps (fst (run init))
                   (repeat Closed 5 ++ Opened :: repeat Closed 4) in
  connects (snd outcome) = 9%nat
  /\ reconnect_attempts (fst outcome) = 4%nat
  /\ connected (fst outcome) = true.
Proof.
  apply (open_resets_the_allowance (fst (run init)) 5 4);
    [reflexivity | reflexivity | reflexivity
    | unfold MAX_RECONNECT_ATTEMPTS; lia | unfold MAX_RECONNECT_ATTEMPTS; lia].
Defined.
End PolygonWebSocketClientMore.
